(** * ProxyBroker providers: a shallow embedding of [proxybroker/providers.py]

    The development follows the Python module top-down:

    - [Py]: the Python built-ins the module relies on (truthiness, [range],
      [str.split], [str.strip], [int], [str], exceptions);
    - [Re]: a backtracking matcher with the semantics of Python's [re] for
      the constructs that occur in the module's patterns, with [findall]
      and [sub];
    - [Provider]: the base class (the setter of [proxies], [_get], [get],
      [_find_on_page], [_find_on_pages], [_pipe]);
    - one module per modelled subclass: the interpreters [Xseo_in],
      [Nntime_com] and [Spys_ru], and the sources that discover their pages
      from an index ([Webanetlabs_net], [Checkerproxy_net], [Proxy_list_org],
      [My_proxy_com], [Blogspot_com]);
    - the statements about the fetch engine, the aggregator, the discovery
      step and the two interpreter schemes.

    Conventions of the model.  Text is [list ascii] (7-bit pages), and [py]
    turns a literal into such a list.  A coroutine is a state-passing
    function that returns or raises; every [await] runs its awaitable to
    completion, and [asyncio.gather] runs its tasks one after the other, in
    list order.  The transport is a function from the rank of a request and
    the request to what happens to it.  Of the log only the two failure
    records are kept.  [utils.IPPortPatternGlobal] is not part of the
    module: a provider carries its compiled [_pattern] as a function, and
    the statements hold for every such function.  In the comments that
    quote a pattern of the module, [\x22] stands for the double quote and a
    blank keeps a star and a parenthesis apart. *)

From Stdlib Require Import ZArith Ascii String DecimalString DecimalPos List Lia Bool.
From stdpp Require Import base gmap strings list.

Local Open Scope Z_scope.

(* ===================================================================== *)
(** ** Python built-ins                                                   *)
(* ===================================================================== *)

Module Py.

(** Python [str], restricted to 7-bit text. *)
Abbreviation str := (list ascii).

Definition py (s : string) : str := list_ascii_of_string s.

(** The exceptions the module can raise.  [OtherError] stands for the
    transport's own exceptions (timeouts, connection resets, decoding
    errors), all subclasses of [Exception]. *)
Inductive exn : Type :=
| ValueError
| KeyError (key : str)
| IndexError
| UnboundLocalError
| BadStatusError (status : Z)
| OtherError (name : str).

(** The outcome of evaluating a Python expression or statement. *)
Inductive result (A : Type) : Type :=
| Ok (a : A)
| Raise (e : exn).
Arguments Ok {A} a.
Arguments Raise {A} e.

Definition bind {A B} (r : result A) (f : A -> result B) : result B :=
  match r with
  | Ok a => f a
  | Raise e => Raise e
  end.

(** Truthiness of a [str]: [if page], [if port], [if not page]. *)
Definition truthy (s : str) : bool :=
  match s with
  | [] => false
  | _ :: _ => true
  end.

(** [range(n)] for an [int] [n]; empty when [n <= 0]. *)
Definition range (n : Z) : list Z :=
  map Z.of_nat (seq 0 (Z.to_nat n)).

Definition ascii_eqb (a b : ascii) : bool := Ascii.eqb a b.

(** [c in chars]. *)
Definition char_in (c : ascii) (chars : str) : bool :=
  existsb (ascii_eqb c) chars.

(** [s.split(sep)] for a one-character separator: cut at every occurrence;
    the result always has at least one (possibly empty) field. *)
Fixpoint split_acc (sep : ascii) (s : str) (field_rev : str) : list str :=
  match s with
  | [] => [rev field_rev]
  | c :: t =>
      if ascii_eqb c sep
      then rev field_rev :: split_acc sep t []
      else split_acc sep t (c :: field_rev)
  end.

Definition split (sep : ascii) (s : str) : list str := split_acc sep s [].

(** [s.lstrip(chars)], [s.rstrip(chars)], [s.strip(chars)]. *)
Fixpoint lstrip (chars : str) (s : str) : str :=
  match s with
  | [] => []
  | c :: t => if char_in c chars then lstrip chars t else s
  end.

Definition rstrip (chars : str) (s : str) : str :=
  rev (lstrip chars (rev s)).

Definition strip (chars : str) (s : str) : str :=
  rstrip chars (lstrip chars s).

(** [int(s)] on the texts the module applies it to: runs over
    [[a-z0-9]].  Such a text is accepted exactly when it is a non-empty
    run of decimal digits; otherwise [int] raises [ValueError]. *)
Definition int (s : str) : result Z :=
  match s with
  | [] => Raise ValueError
  | _ :: _ =>
      match NilEmpty.uint_of_string (string_of_list_ascii s) with
      | Some d => Ok (Z.of_uint d)
      | None => Raise ValueError
      end
  end.

(** [str(n)] for an [int]. *)
Definition str_of_int (n : Z) : str :=
  list_ascii_of_string (NilZero.string_of_int (Z.to_int n)).

(** [''.join(parts)]. *)
Definition join (parts : list str) : str := concat parts.

(** [sep.join(parts)]. *)
Fixpoint join_with (sep : str) (parts : list str) : str :=
  match parts with
  | [] => []
  | [p] => p
  | p :: ps => p ++ sep ++ join_with sep ps
  end.

(** [range(a, b)]; empty when [b <= a]. *)
Definition range2 (a b : Z) : list Z :=
  map (fun i => a + Z.of_nat i) (seq 0 (Z.to_nat (b - a))).

(** ['{:02}'.format(n)]: the decimal text of [n], padded with a zero on the
    left up to two characters (the sign of a negative number counts). *)
Definition format_02 (n : Z) : str :=
  let s := str_of_int n in
  if (length s <? 2)%nat then "0"%char :: s else s.

End Py.
Import Py.

(* ===================================================================== *)
(** ** Python's [re]: backtracking matcher, [findall], [sub]              *)
(* ===================================================================== *)

Module Re.

(** The pattern constructs used by the module's regular expressions.
    [Rep lo hi r] is the greedy repetition [r{lo,hi}] ([hi = None] for an
    open bound): [r*] is [Rep 0 None r], [r+] is [Rep 1 None r], [r?] is
    [Rep 0 (Some 1) r].  [Grp i r] is the capturing group number [i + 1];
    [WordB] is [\b]; [Eps] is the empty pattern. *)
Inductive regex : Type :=
| Chr (c : ascii)
| Cls (p : ascii -> bool)
| Cat (r1 r2 : regex)
| Rep (lo : nat) (hi : option nat) (r : regex)
| Grp (i : nat) (r : regex)
| WordB
| Eps.

(** A literal word, character by character. *)
Fixpoint Lit (w : str) : regex :=
  match w with
  | [] => Eps
  | c :: t => Cat (Chr c) (Lit t)
  end.

(** The sequence [r1 r2 ... rn]. *)
Fixpoint Seq (rs : list regex) : regex :=
  match rs with
  | [] => Eps
  | r :: rs' => Cat r (Seq rs')
  end.

(** Character classes. *)
Definition in_range (lo hi c : ascii) : bool :=
  (N.leb (N_of_ascii lo) (N_of_ascii c)) && (N.leb (N_of_ascii c) (N_of_ascii hi)).
Definition lower (c : ascii) : bool := in_range "a" "z" c.
Definition upper (c : ascii) : bool := in_range "A" "Z" c.
Definition digit (c : ascii) : bool := in_range "0" "9" c.
(** [\w] *)
Definition word (c : ascii) : bool :=
  lower c || upper c || digit c || ascii_eqb c "_".
(** [\s]: space, [\t], [\n], [\v], [\f], [\r] and the separators 28..31. *)
Definition space (c : ascii) : bool :=
  let n := N_of_ascii c in
  (N.eqb n 32) || (N.leb 9 n && N.leb n 13) || (N.leb 28 n && N.leb n 31).
Definition one_of (chars : str) (c : ascii) : bool := char_in c chars.
Definition none_of (chars : str) (c : ascii) : bool := negb (char_in c chars).

(** The matcher's position: the character just before it (for [\b]), the
    text still to read, and the groups captured so far. *)
Record mstate : Type := MState {
  prev : option ascii;
  rest : str;
  caps : list (option str)
}.

Definition advance (c : ascii) (t : str) (st : mstate) : mstate :=
  {| prev := Some c; rest := t; caps := caps st |}.

(** Text consumed between two positions of one scan. *)
Definition consumed (from to : mstate) : str :=
  take (length (rest from) - length (rest to))%nat (rest from).

Definition set_group (i : nat) (txt : str) (st : mstate) : mstate :=
  {| prev := prev st; rest := rest st; caps := <[i := Some txt]> (caps st) |}.

Definition is_word (o : option ascii) : bool :=
  match o with
  | Some c => word c
  | None => false
  end.

(** [\b]: exactly one side of the position is a word character. *)
Definition at_boundary (st : mstate) : bool :=
  xorb (is_word (prev st)) (is_word (head (rest st))).

Definition hi_allows (hi : option nat) : bool :=
  match hi with
  | Some O => false
  | _ => true
  end.

Definition hi_pred (hi : option nat) : option nat :=
  match hi with
  | Some n => Some (Nat.pred n)
  | None => None
  end.

(** Greedy repetition of a body matcher [body], in continuation-passing
    style: one more iteration is tried first, then the continuation.  An
    iteration that consumes nothing ends the loop, as in [sre]; hence at
    most [length (rest st)] iterations run and that much fuel suffices. *)
Fixpoint rep (body : mstate -> (mstate -> option mstate) -> option mstate)
    (fuel : nat) (lo : nat) (hi : option nat)
    (st : mstate) (k : mstate -> option mstate) : option mstate :=
  let stop := if Nat.eqb lo 0 then k st else None in
  match fuel with
  | O => stop
  | S fuel' =>
      let more :=
        if hi_allows hi
        then body st (fun st' =>
               if (length (rest st') <? length (rest st))%nat
               then rep body fuel' (Nat.pred lo) (hi_pred hi) st' k
               else None)
        else None in
      match more with
      | Some final => Some final
      | None => stop
      end
  end.

(** [m r st k]: match [r] at [st], then continue with [k]; [None] makes the
    matcher backtrack into the previous choice point. *)
Fixpoint m (r : regex) (st : mstate) (k : mstate -> option mstate)
    : option mstate :=
  match r with
  | Chr c =>
      match rest st with
      | c' :: t => if ascii_eqb c c' then k (advance c' t st) else None
      | [] => None
      end
  | Cls p =>
      match rest st with
      | c' :: t => if p c' then k (advance c' t st) else None
      | [] => None
      end
  | Cat r1 r2 => m r1 st (fun st' => m r2 st' k)
  | Rep lo hi r1 => rep (m r1) (length (rest st)) lo hi st k
  | Grp i r1 => m r1 st (fun st' => k (set_group i (consumed st st') st'))
  | WordB => if at_boundary st then k st else None
  | Eps => k st
  end.

(** One match: the matched text and the text of each group ([None] for a
    group that did not take part). *)
Record matchobj : Type := MatchObj {
  group0 : str;
  groups : list (option str)
}.

(** Try to match [r] (with [n] groups) at the start of [s].  With
    [must_advance] an empty match is refused ([sre] sets this after an
    empty match, so that the next match at that position is not empty). *)
Definition match_at (r : regex) (n : nat) (must_advance : bool)
    (before : option ascii) (s : str) : option matchobj :=
  let st0 := {| prev := before; rest := s; caps := replicate n None |} in
  match m r st0 (fun st' =>
          if must_advance && (length (rest st') =? length s)%nat
          then None else Some st') with
  | Some st' => Some {| group0 := consumed st0 st'; groups := caps st' |}
  | None => None
  end.

(** What a left-to-right scan of the text sees: characters outside every
    match, and the successive non-overlapping matches. *)
Inductive event : Type :=
| Gap (c : ascii)
| Found (mo : matchobj).

(** The scan shared by [findall] and [sub].  [skip] counts the characters
    still covered by the last match. *)
Fixpoint finditer (r : regex) (n : nat) (before : option ascii) (s : str)
    (skip : nat) : list event :=
  match s with
  | [] =>
      match skip with
      | O =>
          match match_at r n false before [] with
          | Some mo => [Found mo]
          | None => []
          end
      | S _ => []
      end
  | c :: t =>
      match skip with
      | S skip' => finditer r n (Some c) t skip'
      | O =>
          match match_at r n false before s with
          | None => Gap c :: finditer r n (Some c) t 0
          | Some mo =>
              match length (group0 mo) with
              | S len => Found mo :: finditer r n (Some c) t len
              | O =>
                  Found mo ::
                  match match_at r n true before s with
                  | Some mo' =>
                      Found mo' ::
                      finditer r n (Some c) t (Nat.pred (length (group0 mo')))
                  | None => Gap c :: finditer r n (Some c) t 0
                  end
              end
          end
      end
  end.

Definition group_text (g : option str) : str :=
  match g with
  | Some txt => txt
  | None => []
  end.

(** Group [i + 1] as [findall] reports it: [''] when it did not take part. *)
Definition group (mo : matchobj) (i : nat) : str :=
  group_text (default None (groups mo !! i)).

Definition found (evs : list event) : list matchobj :=
  omap (fun ev => match ev with Found mo => Some mo | Gap _ => None end) evs.

(** [re.findall(r, s)] for a pattern with exactly one group: the list of
    that group's texts. *)
Definition findall1 (r : regex) (s : str) : list str :=
  map (fun mo => group mo 0) (found (finditer r 1 None s 0)).

(** [re.findall(r, s)] for a pattern with exactly two groups: the list of
    the pairs of the groups' texts. *)
Definition findall2 (r : regex) (s : str) : list (str * str) :=
  map (fun mo => (group mo 0, group mo 1)) (found (finditer r 2 None s 0)).

(** [re.sub(r, repl, s)] with a callable [repl], which may raise. *)
Fixpoint sub_events (repl : matchobj -> result str) (evs : list event)
    : result str :=
  match evs with
  | [] => Ok []
  | Gap c :: evs' =>
      bind (sub_events repl evs') (fun out => Ok (c :: out))
  | Found mo :: evs' =>
      bind (repl mo) (fun txt =>
      bind (sub_events repl evs') (fun out => Ok (txt ++ out)))
  end.

Definition sub (r : regex) (n : nat) (repl : matchobj -> result str)
    (s : str) : result str :=
  sub_events repl (finditer r n None s 0).

End Re.
Import Re.


(* ===================================================================== *)
(** ** class Provider                                                     *)
(* ===================================================================== *)

Module Provider.

(** The values carried by the [data] dictionaries of the POST requests. *)
Inductive value : Type :=
| VNone
| VInt (n : Z)
| VStr (s : str).

(** The arguments of one [session.request(method, url, data=, headers=)]. *)
Record request : Type := Request {
  req_url : str;
  req_data : option (list (str * value));
  req_headers : option (list (str * str));
  req_method : str
}.

(** The defaults of [get], [_get] and [_find_on_page]:
    [data=None, headers=None, method='GET']. *)
Definition GET (url : str) : request :=
  {| req_url := url; req_data := None; req_headers := None;
     req_method := py "GET" |}.

(** What the transport does with one request: [session.request] raises
    (time-out, connection error, ...), or a response arrives, with a status
    and a body that [resp.text()] returns or fails to decode. *)
Inductive outcome : Type :=
| Refused (e : exn)
| Reply (status : Z) (text : result str).

(** The network: the outcome of the [k]-th request the provider issues. *)
Definition network : Type := nat -> request -> outcome.

(** [proto]: the catalogue gives a tuple of names, or a bare name where the
    tuple's comma was left out ([proto=('SOCKS4')]). *)
Inductive proto_t : Type :=
| ProtoTuple (names : list str)
| ProtoStr (name : str).

#[global] Instance proto_eq_dec : EqDecision proto_t.
Proof. solve_decision. Defined.

#[global] Instance proto_countable : Countable proto_t.
Proof.
  refine (inj_countable'
    (fun p => match p with ProtoTuple l => inl l | ProtoStr s => inr s end)
    (fun x => match x with inl l => ProtoTuple l | inr s => ProtoStr s end) _).
  intros []; reflexivity.
Defined.

(** An element of [self._proxies]: [(host, port, self.proto)]. *)
Abbreviation proxy := (str * str * proto_t)%type.

(** A candidate, as [find_proxies] returns it: [(host, port)]. *)
Abbreviation candidate := (str * str)%type.

(** The mutable part of a provider.  [attrs] holds the attributes a
    subclass adds ([charEqNum]); [sent] the requests issued so far (newest
    first); [debug_log] the failed attempts [_get] logged, [error_log] the
    extraction errors [_find_on_page] logged (newest first). *)
Record state (S : Type) : Type := State {
  _proxies : gset proxy;
  attrs : S;
  sent : list request;
  debug_log : list (str * exn);
  error_log : list exn
}.
Arguments State {S}.
Arguments _proxies {S}.
Arguments attrs {S}.
Arguments sent {S}.
Arguments debug_log {S}.
Arguments error_log {S}.

(** What [__init__] and the class statement fix: [proto], [_max_tries],
    [url], the compiled [_pattern] (as its [findall]) and the method
    [find_proxies] the class dispatches to. *)
Record provider (S : Type) : Type := Class {
  proto : proto_t;
  _max_tries : Z;
  url : str;
  _pattern : str -> list candidate;
  find_proxies : str -> S -> result (list candidate) * S
}.
Arguments Class {S}.
Arguments proto {S}.
Arguments _max_tries {S}.
Arguments url {S}.
Arguments _pattern {S}.
Arguments find_proxies {S}.

(** A coroutine or method of a provider: it reads and updates the state and
    returns or raises. *)
Definition M (S A : Type) : Type := state S -> result A * state S.

Definition ret {S A} (a : A) : M S A := fun st => (Ok a, st).

Definition raise {S A} (e : exn) : M S A := fun st => (Raise e, st).

Definition mbind {S A B} (c : M S A) (f : A -> M S B) : M S B :=
  fun st =>
    match c st with
    | (Ok a, st') => f a st'
    | (Raise e, st') => (Raise e, st')
    end.

Notation "'let!' x ':=' c 'in' k" := (mbind c (fun x => k))
  (at level 10, x pattern, c at level 100, k at level 200).
Notation "c ';;' k" := (mbind c (fun _ => k))
  (at level 100, k at level 200, right associativity).

(** [__init__]: [self._proxies = set()]. *)
Definition __init__ {S} (a : S) : state S :=
  {| _proxies := ∅; attrs := a; sent := []; debug_log := []; error_log := [] |}.

(** The setter of [proxies]:
<<
    new = [(host, port, self.proto) for host, port in new if port]
    self._proxies.update(new)
>> *)
Definition tagged {S} (self : provider S) (new : list candidate) : list proxy :=
  omap (fun '(host, port) =>
          if truthy port then Some (host, port, proto self) else None) new.

Definition set_proxies {S} (self : provider S) (new : list candidate)
    : M S unit :=
  fun st =>
    (Ok tt,
     {| _proxies := _proxies st ∪ list_to_set (tagged self new);
        attrs := attrs st; sent := sent st;
        debug_log := debug_log st; error_log := error_log st |}).

(** [self._session.request(...)]: the request is recorded and the network
    answers. *)
Definition send {S} (net : network) (req : request) : M S outcome :=
  fun st =>
    (Ok (net (length (sent st)) req),
     {| _proxies := _proxies st; attrs := attrs st; sent := req :: sent st;
        debug_log := debug_log st; error_log := error_log st |}).

(** [log.debug('%s is failed. Error: %r;' % (url, e))]. *)
Definition log_failed {S} (url : str) (e : exn) : M S unit :=
  fun st =>
    (Ok tt,
     {| _proxies := _proxies st; attrs := attrs st; sent := sent st;
        debug_log := (url, e) :: debug_log st; error_log := error_log st |}).

(** [log.error('Error when executing find_proxies. ...')]. *)
Definition log_error {S} (e : exn) : M S unit :=
  fun st =>
    (Ok tt,
     {| _proxies := _proxies st; attrs := attrs st; sent := sent st;
        debug_log := debug_log st; error_log := e :: error_log st |}).

(** The [try] block of [_get], from the response on.  The local [page] is
    assigned before the status is looked at, so the block hands back the
    value [page] has when it ends, together with how it ended. *)
Definition _get_try (page : str) (o : outcome) : str * result unit :=
  match o with
  | Refused e => (page, Raise e)
  | Reply status text =>
      match text with
      | Raise e => (page, Raise e)
      | Ok body =>
          let page := body in
          if negb (status =? 200)
          then (page, Raise (BadStatusError status))
          else (page, Ok tt)
      end
  end.

(** [_get]:
<<
    page = ''
    try:
        ... as resp:
            page = await resp.text()
            if resp.status != 200:
                raise BadStatusError('Status: %s' % resp.status)
    except Exception as e:
        log.debug('%s is failed. Error: %r;' % (url, e))
    return page
>> *)
Definition _get {S} (net : network) (req : request) : M S str :=
  let page := [] in
  let! o := send net req in
  let '(page, ended) := _get_try page o in
  match ended with
  | Raise e => log_failed (req_url req) e ;; ret page
  | Ok _ => ret page
  end.

(** The [for _ in range(self._max_tries)] loop of [get].  [page] is [None]
    while the local is still unbound. *)
Fixpoint get_loop {S} (net : network) (req : request) (tries : list Z)
    (page : option str) : M S (option str) :=
  match tries with
  | [] => ret page
  | _ :: tries' =>
      let! p := _get net req in
      if truthy p then ret (Some p) else get_loop net req tries' (Some p)
  end.

(** [get]: the loop, then [return page]. *)
Definition get {S} (self : provider S) (net : network) (req : request)
    : M S str :=
  let! page := get_loop net req (range (_max_tries self)) None in
  match page with
  | Some p => ret p
  | None => raise UnboundLocalError
  end.

(** [self.find_proxies(page)] on the subclass attributes. *)
Definition call_find_proxies {S} (self : provider S) (page : str)
    : M S (list candidate) :=
  fun st =>
    let '(r, a) := find_proxies self page (attrs st) in
    (r, {| _proxies := _proxies st; attrs := a; sent := sent st;
           debug_log := debug_log st; error_log := error_log st |}).

(** [try: received = self.find_proxies(page)
     except Exception as e: received = []; log.error(...)]. *)
Definition try_find_proxies {S} (self : provider S) (page : str)
    : M S (list candidate) :=
  fun st =>
    match call_find_proxies self page st with
    | (Ok received, st') => (Ok received, st')
    | (Raise e, st') => (log_error e ;; ret []) st'
    end.

(** [_find_on_page]. *)
Definition _find_on_page {S} (self : provider S) (net : network)
    (req : request) : M S unit :=
  let! page := get self net req in
  if negb (truthy page) then ret tt
  else
    let! received := try_find_proxies self page in
    set_proxies self received.

(** The argument of [_find_on_pages]: a list of URLs, or a list of keyword
    dictionaries ([{'url': ..., 'data': ..., 'method': ...}]). *)
Inductive pages : Type :=
| Urls (urls : list str)
| Kwargs (reqs : list request).

(** [asyncio.gather] over the tasks, one task after the other; the first
    exception ends the gather. *)
Fixpoint gather {S A} (tasks : list (M S A)) : M S (list A) :=
  match tasks with
  | [] => ret []
  | t :: ts =>
      let! a := t in
      let! rest := gather ts in
      ret (a :: rest)
  end.

(** [_find_on_pages]: nothing for an empty list; a list of URLs goes
    through [set(urls)], iterated here in order of first occurrence. *)
Definition _find_on_pages {S} (self : provider S) (net : network)
    (urls : pages) : M S unit :=
  match urls with
  | Urls [] | Kwargs [] => ret tt
  | Urls l =>
      gather (map (fun u => _find_on_page self net (GET u)) (remove_dups l)) ;;
      ret tt
  | Kwargs l =>
      gather (map (fun r => _find_on_page self net r) l) ;; ret tt
  end.

(** [_find_proxies]: [self._pattern.findall(page)]. *)
Definition _find_proxies (_pattern : str -> list candidate) (page : str)
    : list candidate :=
  _pattern page.

(** [Provider(url, proto, max_tries=...)]: an instance of the base class,
    whose [find_proxies] is [return self._find_proxies(page)].  The class
    takes its [_pattern], [IPPortPatternGlobal], from [utils]. *)
Definition new (url : str) (proto : proto_t) (max_tries : Z)
    (IPPortPatternGlobal : str -> list candidate) : provider unit :=
  {| proto := proto; _max_tries := max_tries; url := url;
     _pattern := IPPortPatternGlobal;
     find_proxies := fun page a => (Ok (_find_proxies IPPortPatternGlobal page), a) |}.

(** [Provider._pipe]: [await self._find_on_page(self.url)]. *)
Definition _pipe {S} (self : provider S) (net : network) : M S unit :=
  _find_on_page self net (GET (url self)).

(** [get_proxies], for a class whose [_pipe] is [pipe]:
<<
    async with aiohttp.ClientSession(...) as self._session:
        await self._pipe()
    return self.proxies
>> *)
Definition get_proxies {S} (pipe : M S unit) : M S (gset proxy) :=
  pipe ;; (fun st => (Ok (_proxies st), st)).

End Provider.
Import Provider.

(* ===================================================================== *)
(** ** Dictionaries                                                       *)
(* ===================================================================== *)

Module Dict.

(** [d[key]]: [KeyError] on a missing key. *)
Definition getitem {V} (d : gmap str V) (key : str) : result V :=
  match d !! key with
  | Some v => Ok v
  | None => Raise (KeyError key)
  end.

(** [{k: v for k, v in pairs}]: a later pair overrides an earlier one. *)
Definition of_pairs {V} (pairs : list (str * V)) : gmap str V :=
  foldl (fun d '(k, v) => <[k := v]> d) ∅ pairs.

(** [{**d, key: v}] on a keyword dictionary kept in insertion order. *)
Fixpoint updated {V} (d : list (str * V)) (key : str) (v : V)
    : list (str * V) :=
  match d with
  | [] => [(key, v)]
  | (k, w) :: d' =>
      if decide (k = key) then (k, v) :: d' else (k, w) :: updated d' key v
  end.

End Dict.

(** The double quote, which the patterns below mention. *)
Definition dquote : ascii := ascii_of_nat 34.

(* ===================================================================== *)
(** ** class Xseo_in                                                      *)
(* ===================================================================== *)

Module Xseo_in.

(** [r'\(\x22\x22\+(?P<chars>[a-z+]+)\)'] *)
Definition expPortOnJS : regex :=
  Seq [Chr "("; Chr dquote; Chr dquote; Chr "+";
       Grp 0 (Rep 1 None (Cls (fun c => lower c || ascii_eqb c "+")));
       Chr ")"].

(** [r'\b(?P<char>[a-z])=(?P<num>\d);'] *)
Definition expCharNum : regex :=
  Seq [WordB; Grp 0 (Cls lower); Chr "="; Grp 1 (Cls digit); Chr ";"].

(** [[self.charEqNum[ch] for ch in chars if ch != '+']] *)
Fixpoint lookup_chars (charEqNum : gmap str str) (chars : str)
    : result (list str) :=
  match chars with
  | [] => Ok []
  | ch :: chars' =>
      if negb (ascii_eqb ch "+")
      then bind (Dict.getitem charEqNum [ch]) (fun d =>
           bind (lookup_chars charEqNum chars') (fun ds => Ok (d :: ds)))
      else lookup_chars charEqNum chars'
  end.

(** [char_js_port_to_num]:
<<
    chars = matchobj.groups()[0]
    num = ''.join([self.charEqNum[ch] for ch in chars if ch != '+'])
    return num
>> *)
Definition char_js_port_to_num (charEqNum : gmap str str) (mo : matchobj)
    : result str :=
  match groups mo !! 0%nat with
  | Some (Some chars) =>
      bind (lookup_chars charEqNum chars) (fun ds => Ok (join ds))
  | Some None => Raise (OtherError (py "TypeError"))
  | None => Raise IndexError
  end.

(** [find_proxies]: the table is rebuilt from the page, the port
    expressions are rewritten, and the rewritten page goes to the pattern. *)
Definition find_proxies (_pattern : str -> list candidate) (page : str)
    (_ : gmap str str) : result (list candidate) * gmap str str :=
  let charEqNum := Dict.of_pairs (findall2 expCharNum page) in
  (bind (sub expPortOnJS 1 (char_js_port_to_num charEqNum) page)
        (fun page => Ok (_find_proxies _pattern page)),
   charEqNum).

(** [_pipe]:
<<
    await self._find_on_page(
        url='http://xseo.in/proxylist', data={'submit': 1}, method='POST')
>> *)
Definition _pipe {S} (self : provider S) (net : network) : M S unit :=
  _find_on_page self net
    {| req_url := py "http://xseo.in/proxylist";
       req_data := Some [(py "submit", VInt 1)];
       req_headers := None;
       req_method := py "POST" |}.

(** [Xseo_in(proto=..., max_tries=...)]; [charEqNum] starts as [{}]. *)
Definition new (proto : proto_t) (max_tries : Z)
    (IPPortPatternGlobal : str -> list candidate) : provider (gmap str str) :=
  Class proto max_tries [] IPPortPatternGlobal
        (find_proxies IPPortPatternGlobal).

End Xseo_in.

(* ===================================================================== *)
(** ** class Nntime_com                                                   *)
(* ===================================================================== *)

Module Nntime_com.

(** [r'\(\x22:\x22\+(?P<chars>[a-z+]+)\)'] *)
Definition expPortOnJS : regex :=
  Seq [Chr "("; Chr dquote; Chr ":"; Chr dquote; Chr "+";
       Grp 0 (Rep 1 None (Cls (fun c => lower c || ascii_eqb c "+")));
       Chr ")"].

(** [r'\b(?P<char>[a-z])=(?P<num>\d);'] *)
Definition expCharNum : regex :=
  Seq [WordB; Grp 0 (Cls lower); Chr "="; Grp 1 (Cls digit); Chr ";"].

(** [[self.charEqNum[ch] for ch in chars if ch != '+']] *)
Fixpoint lookup_chars (charEqNum : gmap str str) (chars : str)
    : result (list str) :=
  match chars with
  | [] => Ok []
  | ch :: chars' =>
      if negb (ascii_eqb ch "+")
      then bind (Dict.getitem charEqNum [ch]) (fun d =>
           bind (lookup_chars charEqNum chars') (fun ds => Ok (d :: ds)))
      else lookup_chars charEqNum chars'
  end.

(** [char_js_port_to_num], the same text as in [Xseo_in]. *)
Definition char_js_port_to_num (charEqNum : gmap str str) (mo : matchobj)
    : result str :=
  match groups mo !! 0%nat with
  | Some (Some chars) =>
      bind (lookup_chars charEqNum chars) (fun ds => Ok (join ds))
  | Some None => Raise (OtherError (py "TypeError"))
  | None => Raise IndexError
  end.

(** [find_proxies], with the class's own [_pattern]. *)
Definition find_proxies (_pattern : str -> list candidate) (page : str)
    (_ : gmap str str) : result (list candidate) * gmap str str :=
  let charEqNum := Dict.of_pairs (findall2 expCharNum page) in
  (bind (sub expPortOnJS 1 (char_js_port_to_num charEqNum) page)
        (fun page => Ok (_find_proxies _pattern page)),
   charEqNum).

(** [_pipe]:
<<
    tpl = 'http://www.nntime.com/proxy-updated-{:02}.htm'
    urls = [tpl.format(n) for n in range(1, 31)]
    await self._find_on_pages(urls)
>> *)
Definition urls : list str :=
  map (fun n => py "http://www.nntime.com/proxy-updated-" ++ format_02 n
                ++ py ".htm")
      (range2 1 31).

Definition _pipe {S} (self : provider S) (net : network) : M S unit :=
  _find_on_pages self net (Urls urls).

End Nntime_com.

(* ===================================================================== *)
(** ** class Spys_ru                                                      *)
(* ===================================================================== *)

Module Spys_ru.

(** [charEqNum = {}]: the class attribute, which [find_proxies] updates in
    place from page to page. *)
Definition charEqNum : gmap str Z := ∅.

Definition lower_digit (c : ascii) : bool := lower c || digit c.

(** [[a-z0-9^+]] *)
Definition port_code_char (c : ascii) : bool :=
  lower c || digit c || ascii_eqb c "^" || ascii_eqb c "+".

(** [[a-z\d\^]] *)
Definition num_char (c : ascii) : bool :=
  lower c || digit c || ascii_eqb c "^".

(** [r'(?P<js_port_code>(?:\+\([a-z0-9^+]+\))+)'] *)
Definition expPortOnJS : regex :=
  Grp 0 (Rep 1 None
           (Seq [Chr "+"; Chr "("; Rep 1 None (Cls port_code_char); Chr ")"])).

(** [r'[>;]{1}(?P<char>[a-z\d]{4,})=(?P<num>[a-z\d\^]+)'] *)
Definition expCharNum : regex :=
  Seq [Rep 1 (Some 1%nat) (Cls (one_of (py ">;")));
       Grp 0 (Rep 4 None (Cls lower_digit));
       Chr "=";
       Grp 1 (Rep 1 None (Cls num_char))].

(** [r\x22'([a-z0-9]{32})'\x22] *)
Definition expSession : regex :=
  Seq [Chr "'"; Grp 0 (Rep 32 (Some 32%nat) (Cls lower_digit)); Chr "'"].

(** [a, b = parts]: unpacking into exactly two names. *)
Definition unpack2 (parts : list str) : result (str * str) :=
  match parts with
  | [a; b] => Ok (a, b)
  | _ => Raise ValueError
  end.

(** The loop of [char_js_port_to_num]:
<<
    for numOfChars in chars[1:]:
        var1, var2 = numOfChars.strip('()').split('^')
        digit = self.charEqNum[var1] ^ self.charEqNum[var2]
        num += str(digit)
>> *)
Fixpoint port_loop (charEqNum : gmap str Z) (chars : list str) (num : str)
    : result str :=
  match chars with
  | [] => Ok num
  | numOfChars :: chars' =>
      bind (unpack2 (split "^" (strip (py "()") numOfChars))) (fun '(var1, var2) =>
      bind (Dict.getitem charEqNum var1) (fun v1 =>
      bind (Dict.getitem charEqNum var2) (fun v2 =>
      let digit := Z.lxor v1 v2 in
      port_loop charEqNum chars' (num ++ str_of_int digit))))
  end.

(** [char_js_port_to_num]: [chars = matchobj.groups()[0].split('+')], then
    the loop over [chars[1:]], starting from [num = '']. *)
Definition char_js_port_to_num (charEqNum : gmap str Z) (mo : matchobj)
    : result str :=
  match groups mo !! 0%nat with
  | Some (Some code) =>
      let chars := split "+" code in
      port_loop charEqNum (drop 1 chars) []
  | Some None => Raise (OtherError (py "AttributeError"))
  | None => Raise IndexError
  end.

(** The loop that fills the table, in the order of [res]:
<<
    for char, num in res:
        if '^' in num:
            digit, tochar = num.split('^')
            num = int(digit) ^ self.charEqNum[tochar]
        self.charEqNum[char] = int(num)
>>
    The table is updated in place, so what was stored before an exception
    stays stored. *)
Fixpoint resolve (res : list (str * str)) (charEqNum : gmap str Z)
    : result unit * gmap str Z :=
  match res with
  | [] => (Ok tt, charEqNum)
  | (char, num) :: res' =>
      let value :=
        if char_in "^" num
        then bind (unpack2 (split "^" num)) (fun '(digit, tochar) =>
             bind (int digit) (fun d =>
             bind (Dict.getitem charEqNum tochar) (fun v =>
             Ok (Z.lxor d v))))
        else int num in
      match value with
      | Ok n => resolve res' (<[char := n]> charEqNum)
      | Raise e => (Raise e, charEqNum)
      end
  end.

(** [find_proxies]. *)
Definition find_proxies (_pattern : str -> list candidate) (page : str)
    (charEqNum : gmap str Z) : result (list candidate) * gmap str Z :=
  let res := findall2 expCharNum page in
  match resolve res charEqNum with
  | (Raise e, charEqNum) => (Raise e, charEqNum)
  | (Ok _, charEqNum) =>
      (bind (sub expPortOnJS 1 (char_js_port_to_num charEqNum) page)
            (fun page => Ok (_find_proxies _pattern page)),
       charEqNum)
  end.

(** [xs[0]] *)
Definition first {A} (xs : list A) : result A :=
  match xs with
  | x :: _ => Ok x
  | [] => Raise IndexError
  end.

(** [_pipe]:
<<
    page = await self.get(url)
    if not page:
        return
    sessionId = re.findall(expSession, page)[0]
    data = {'xx0': sessionId, 'xpp': 5, 'xf1': None}
    urls = [{'url': url, 'data': {**data, 'xf1': lvl}, 'method': 'POST'}
            for lvl in [3, 4]]
    await self._find_on_pages(urls)
>> *)
Definition _pipe {S} (self : provider S) (net : network) : M S unit :=
  let url := py "http://spys.one/proxies/" in
  let! page := get self net (GET url) in
  if negb (truthy page) then ret tt
  else
    match first (findall1 expSession page) with
    | Raise e => raise e
    | Ok sessionId =>
        let data :=
          [(py "xx0", VStr sessionId); (py "xpp", VInt 5); (py "xf1", VNone)] in
        let method := py "POST" in
        let urls :=
          map (fun lvl =>
                 {| req_url := url;
                    req_data := Some (Dict.updated data (py "xf1") (VInt lvl));
                    req_headers := None;
                    req_method := method |})
              [3; 4] in
        _find_on_pages self net (Kwargs urls)
    end.

(** [Spys_ru(proto=..., max_tries=...)]: the class inherits [_pattern] and
    [url=None]; its [charEqNum] starts as the class attribute [{}]. *)
Definition new (proto : proto_t) (max_tries : Z)
    (IPPortPatternGlobal : str -> list candidate) : provider (gmap str Z) :=
  Class proto max_tries [] IPPortPatternGlobal
        (find_proxies IPPortPatternGlobal).

End Spys_ru.

(* ===================================================================== *)
(** ** The sources that discover their pages from an index                *)
(* ===================================================================== *)

(** [['\x22]] and [[^'\x22]] *)
Definition quote (c : ascii) : bool := one_of ["'"%char; dquote] c.
Definition not_quote (c : ascii) : bool := none_of ["'"%char; dquote] c.

(** [href\s*=\s*['\x22]], the common head of the link patterns. *)
Definition href_eq_quote : list regex :=
  [Lit (py "href"); Rep 0 None (Cls space); Chr "=";
   Rep 0 None (Cls space); Cls quote].

Module Webanetlabs_net.

(** [r'''href\s*=\s*['\x22]([^'\x22]*proxylist2022[^'\x22]* )['\x22]'''] *)
Definition exp : regex :=
  Seq (href_eq_quote ++
       [Grp 0 (Seq [Rep 0 None (Cls not_quote); Lit (py "proxylist2022");
                    Rep 0 None (Cls not_quote)]);
        Cls quote]).

Definition index : str := py "https://webanetlabs.net/publ/24".

(** [_pipe]:
<<
    page = await self.get('https://webanetlabs.net/publ/24')
    if not page:
        return
    urls = ['https://webanetlabs.net%s' % path
            for path in re.findall(exp, page)]
    await self._find_on_pages(urls)
>> *)
Definition _pipe {S} (self : provider S) (net : network) : M S unit :=
  let! page := get self net (GET index) in
  if negb (truthy page) then ret tt
  else
    let urls :=
      map (fun path => py "https://webanetlabs.net" ++ path)
          (findall1 exp page) in
    _find_on_pages self net (Urls urls).

End Webanetlabs_net.

Module Checkerproxy_net.

(** [r'''href\s*=\s*['\x22](/archive/\d{4}-\d{2}-\d{2})['\x22]'''] *)
Definition exp : regex :=
  Seq (href_eq_quote ++
       [Grp 0 (Seq [Lit (py "/archive/"); Rep 4 (Some 4%nat) (Cls digit);
                    Chr "-"; Rep 2 (Some 2%nat) (Cls digit);
                    Chr "-"; Rep 2 (Some 2%nat) (Cls digit)]);
        Cls quote]).

Definition index : str := py "https://checkerproxy.net/".

(** [_pipe]: as [Webanetlabs_net._pipe], with
    ['https://checkerproxy.net/api%s' % path]. *)
Definition _pipe {S} (self : provider S) (net : network) : M S unit :=
  let! page := get self net (GET index) in
  if negb (truthy page) then ret tt
  else
    let urls :=
      map (fun path => py "https://checkerproxy.net/api" ++ path)
          (findall1 exp page) in
    _find_on_pages self net (Urls urls).

End Checkerproxy_net.

Module Proxy_list_org.

(** [r'''href\s*=\s*['\x22]\./([^'\x22]?index\.php\?p=\d+[^'\x22]* )['\x22]'''] *)
Definition exp : regex :=
  Seq (href_eq_quote ++
       [Chr "."; Chr "/";
        Grp 0 (Seq [Rep 0 (Some 1%nat) (Cls not_quote);
                    Lit (py "index.php?p="); Rep 1 None (Cls digit);
                    Rep 0 None (Cls not_quote)]);
        Cls quote]).

Definition index : str := py "http://proxy-list.org/english/index.php?p=1".

(** [_pipe]: the discovered pages, then [urls.append(url)]. *)
Definition _pipe {S} (self : provider S) (net : network) : M S unit :=
  let url := index in
  let! page := get self net (GET url) in
  if negb (truthy page) then ret tt
  else
    let urls :=
      map (fun path => py "http://proxy-list.org/english/" ++ path)
          (findall1 exp page) in
    let urls := urls ++ [url] in
    _find_on_pages self net (Urls urls).

End Proxy_list_org.

Module My_proxy_com.

(** [r'''href\s*=\s*['\x22]([^'\x22]?free-[^'\x22]* )['\x22]'''] *)
Definition exp : regex :=
  Seq (href_eq_quote ++
       [Grp 0 (Seq [Rep 0 (Some 1%nat) (Cls not_quote); Lit (py "free-");
                    Rep 0 None (Cls not_quote)]);
        Cls quote]).

Definition index : str := py "https://www.my-proxy.com/free-proxy-list.html".

(** [_pipe]: the discovered pages, then [urls.append(url)]. *)
Definition _pipe {S} (self : provider S) (net : network) : M S unit :=
  let url := index in
  let! page := get self net (GET url) in
  if negb (truthy page) then ret tt
  else
    let urls :=
      map (fun path => py "https://www.my-proxy.com/" ++ path)
          (findall1 exp page) in
    let urls := urls ++ [url] in
    _find_on_pages self net (Urls urls).

End My_proxy_com.

Module Blogspot_com_base.

(** [[^'\x22#]] *)
Definition not_quote_hash (c : ascii) : bool :=
  none_of ["'"%char; dquote; "#"%char] c.

(** [r'''<a href\s*=\s*['\x22]([^'\x22]*\.\w+/\d{4}/\d{2}/[^'\x22#]* )['\x22]>'''] *)
Definition exp : regex :=
  Seq ([Chr "<"; Chr "a"; Chr " "] ++ href_eq_quote ++
       [Grp 0 (Seq [Rep 0 None (Cls not_quote); Chr ".";
                    Rep 1 None (Cls word); Chr "/";
                    Rep 4 (Some 4%nat) (Cls digit); Chr "/";
                    Rep 2 (Some 2%nat) (Cls digit); Chr "/";
                    Rep 0 None (Cls not_quote_hash)]);
        Cls quote; Chr ">"]).

(** The index fetches:
    [asyncio.gather] over [self.get('http://%s/' % d) for d in self.domains]. *)
Definition index_pages {S} (self : provider S) (net : network)
    (domains : list str) : M S (list str) :=
  gather (map (fun d => get self net (GET (py "http://" ++ d ++ py "/")))
              domains).

(** [_pipe]:
<<
    pages = await asyncio.gather(...)
    urls = re.findall(exp, ''.join(pages))
    await self._find_on_pages(urls)
>> *)
Definition _pipe {S} (self : provider S) (net : network)
    (domains : list str) : M S unit :=
  let! pages := index_pages self net domains in
  let urls := findall1 exp (join pages) in
  _find_on_pages self net (Urls urls).

End Blogspot_com_base.

Module Blogspot_com.

Definition domains : list str :=
  [py "sslproxies24.blogspot.com";
   py "proxyserverlist-24.blogspot.com";
   py "freeschoolproxy.blogspot.com";
   py "googleproxies24.blogspot.com"].

Definition _pipe {S} (self : provider S) (net : network) : M S unit :=
  Blogspot_com_base._pipe self net domains.

End Blogspot_com.

(* ===================================================================== *)
(** ** The sources with a fixed list of pages, and the file source        *)
(* ===================================================================== *)

Module Foxtools_ru.

(** [['http://api.foxtools.ru/v2/Proxy.txt?page=%d' % n
      for n in range(1, 6)]] *)
Definition urls : list str :=
  map (fun n => py "http://api.foxtools.ru/v2/Proxy.txt?page=" ++ str_of_int n)
      (range2 1 6).

Definition _pipe {S} (self : provider S) (net : network) : M S unit :=
  _find_on_pages self net (Urls urls).

End Foxtools_ru.

Module proxyservers_pro.

(** [['https://premproxy.com/list/ip-port/%d.htm' % n
      for n in range(1, 20)]] *)
Definition urls : list str :=
  map (fun n => py "https://premproxy.com/list/ip-port/" ++ str_of_int n
                ++ py ".htm")
      (range2 1 20).

Definition _pipe {S} (self : provider S) (net : network) : M S unit :=
  _find_on_pages self net (Urls urls).

End proxyservers_pro.

Module Proxylist_download.

Definition urls : list str :=
  [py "https://www.proxy-list.download/api/v1/get?type=http";
   py "https://www.proxy-list.download/api/v1/get?type=https";
   py "https://www.proxy-list.download/api/v1/get?type=socks4";
   py "https://www.proxy-list.download/api/v1/get?type=socks5"].

Definition _pipe {S} (self : provider S) (net : network) : M S unit :=
  _find_on_pages self net (Urls urls).

End Proxylist_download.

Module FileProvider.

(** [_pipe]:
<<
    with open(self.url, 'r') as f:
        self.proxies = self.find_proxies(f.read())
>>
    [file] is what opening and reading [self.url] gives: the text, or the
    exception of [open] or [read]. *)
Definition _pipe {S} (self : provider S) (file : result str) : M S unit :=
  match file with
  | Raise e => raise e
  | Ok text =>
      let! received := call_find_proxies self text in
      set_proxies self received
  end.

End FileProvider.

(* ===================================================================== *)
(** ** Vocabulary of the statements                                       *)
(* ===================================================================== *)

(** The number of requests issued between two states of a provider. *)
Definition issued {S} (st st' : state S) : nat :=
  (length (sent st') - length (sent st))%nat.

(** The text the [i]-th attempt from [st] on contributes: what [_get]
    returns for the outcome the network gives to that request. *)
Definition attempt_text {S} (net : network) (req : request) (st : state S)
    (i : nat) : str :=
  fst (_get_try [] (net (length (sent st) + i)%nat req)).

(** A sequence of merges into the result set: one call of the setter of
    [proxies] per candidate list, in order. *)
Definition merges {S} (self : provider S) (batches : list (list candidate))
    (st : state S) : state S :=
  foldl (fun st new => snd (set_proxies self new st)) st batches.

(** The host and port of a record of the result set. *)
Definition host_port (p : proxy) : str * str := (p.1.1, p.1.2).

(** A stand-in for the compiled [_pattern]: it reports the page it is given. *)
Definition echo_pattern : str -> list candidate :=
  fun page => [(page, [])].

(** A plain provider, as the catalogue builds them. *)
Definition demo_provider (max_tries : Z) : provider unit :=
  Provider.new (py "http://example.org/list")
               (ProtoTuple [py "HTTP"; py "HTTPS"]) max_tries echo_pattern.

(** The [Spys_ru] source with the default retry budget. *)
Definition demo_spys : provider (gmap str Z) :=
  Spys_ru.new (ProtoTuple [py "HTTP"]) 3 echo_pattern.

(** A network that answers every request with [404 Not Found]. *)
Definition net_404 : network :=
  fun _ _ => Reply 404 (Ok (py "Not Found")).

(** A network whose first two requests time out and whose third is served. *)
Definition net_third_time : network :=
  fun k _ =>
    match k with
    | 0%nat | 1%nat => Refused (OtherError (py "TimeoutError"))
    | _ => Reply 200 (Ok (py "10.0.0.1:8080"))
    end.

(** A run of a pipeline that completes without an error and leaves the
    result set as it found it. *)
Definition empty_crawl {S} (pipe : M S unit) (st : state S) : Prop :=
  fst (pipe st) = Ok tt /\ _proxies (snd (pipe st)) = _proxies st.

(** The index page of [Spys_ru]. *)
Definition spys_index : str := py "http://spys.one/proxies/".

(** A network that serves every request with a page that holds neither a
    session token nor a link. *)
Definition net_blocked : network :=
  fun _ _ => Reply 200 (Ok (py "<html>Access denied</html>")).

(** A network on which every request times out. *)
Definition net_down : network :=
  fun _ _ => Refused (OtherError (py "TimeoutError")).

(** *** Scheme A pages *)

(** A page as the Scheme A interpreters read it: stretches of text, and
    port expressions, each given by the letters it refers to, in order. *)
Inductive segment : Type :=
| Text (t : str)
| Site (letters : str).

(** The letters of a port expression, joined by ['+']. *)
Definition joined (letters : str) : str :=
  join_with (py "+") (map (fun ch => [ch]) letters).

(** The wrapping of a port expression: [(\x22\x22+...)] on xseo.in and
    [(\x22:\x22+...)] on nntime.com. *)
Definition xseo_delimiter : str := [dquote; dquote].
Definition nntime_delimiter : str := [dquote; ":"%char; dquote].

Definition site_text (delimiter : str) (letters : str) : str :=
  py "(" ++ delimiter ++ py "+" ++ joined letters ++ py ")".

Definition segment_text (delimiter : str) (seg : segment) : str :=
  match seg with
  | Text t => t
  | Site letters => site_text delimiter letters
  end.

Definition page_of (delimiter : str) (segs : list segment) : str :=
  concat (map (segment_text delimiter) segs).

(** The digits a table gives for the letters of a port expression. *)
Definition digits_of (charEqNum : gmap str str) (letters : str) : str :=
  concat (map (fun ch => default [] (charEqNum !! [ch])) letters).

(** The page with every port expression replaced by its digits. *)
Definition rewritten (charEqNum : gmap str str) (segs : list segment) : str :=
  concat (map (fun seg =>
                 match seg with
                 | Text t => t
                 | Site letters => digits_of charEqNum letters
                 end) segs).

(** [diverges lit t]: [t] differs from the literal [lit] at a position
    that both have, so that [lit] cannot be read at the start of [t],
    whatever follows [t]. *)
Fixpoint diverges (lit t : str) : bool :=
  match lit, t with
  | a :: lit', b :: t' => if ascii_eqb a b then diverges lit' t' else true
  | _, _ => false
  end.

(** Text in which no port expression starts: after every ['('] the text
    departs from the opening [delimiter +] of a port expression. *)
Fixpoint plain (delimiter : str) (t : str) : bool :=
  match t with
  | [] => true
  | c :: t' =>
      (if ascii_eqb c "(" then diverges (delimiter ++ py "+") t' else true)
      && plain delimiter t'
  end.

(** A port expression refers to at least one letter, and each of its
    letters is a lower-case letter the table defines. *)
Definition defined_letters (charEqNum : gmap str str) (letters : str) : bool :=
  match letters with
  | [] => false
  | _ :: _ =>
      forallb (fun ch => lower ch && bool_decide (is_Some (charEqNum !! [ch])))
              letters
  end.

Definition well_formed (delimiter : str) (charEqNum : gmap str str)
    (seg : segment) : bool :=
  match seg with
  | Text t => plain delimiter t
  | Site letters => defined_letters charEqNum letters
  end.

(** [[a-z+]] *)
Definition letter_or_plus (c : ascii) : bool := lower c || ascii_eqb c "+".

(** The pattern of a port expression, for a given wrapping. *)
Definition site_pattern (delimiter : str) : regex :=
  Seq (map Chr (py "(" ++ delimiter ++ py "+") ++
       [Grp 0 (Rep 1 None (Cls letter_or_plus)); Chr ")"]).

(** The character before the position reached after reading [w]. *)
Definition prev_after (before : option ascii) (w : str) : option ascii :=
  foldl (fun _ c => Some c) before w.

(** *** Scheme B token definitions *)

(** The right-hand side of a token definition as [find_proxies] accepts
    it: a literal integer, or a literal integer XOR-ed with a token. *)
Inductive tokdef : Type :=
| Literal (n : N)
| XorWith (n : N) (tok : str).

(** A definition as the page writes it: [5], or [5^bbbb]. *)
Definition def_text (d : tokdef) : str :=
  match d with
  | Literal n => str_of_int (Z.of_N n)
  | XorWith n tok => str_of_int (Z.of_N n) ++ py "^" ++ tok
  end.

Definition defs_text (defs : list (str * tokdef)) : list (str * str) :=
  map (fun '(name, d) => (name, def_text d)) defs.

(** The table after the definitions, taken one after the other: a
    composite definition reads the token it refers to in the table built so
    far, and there is no table when that token is not in it. *)
Fixpoint tokens (defs : list (str * tokdef)) (tbl : gmap str Z)
    : option (gmap str Z) :=
  match defs with
  | [] => Some tbl
  | (name, Literal n) :: defs' => tokens defs' (<[name := Z.of_N n]> tbl)
  | (name, XorWith n tok) :: defs' =>
      match tbl !! tok with
      | Some v => tokens defs' (<[name := Z.lxor (Z.of_N n) v]> tbl)
      | None => None
      end
  end.

(** The token names referred to hold no ['^']. *)
Definition names_ok (defs : list (str * tokdef)) : bool :=
  forallb (fun '(_, d) =>
             match d with
             | Literal _ => true
             | XorWith _ tok => negb (char_in "^" tok)
             end) defs.

(** A parenthesised pair of a port expression, [(var1^var2)], and a port
    expression: pairs, each introduced by ['+']. *)
Definition pair_text (p : str * str) : str :=
  py "(" ++ p.1 ++ py "^" ++ p.2 ++ py ")".

Definition port_code (pairs : list (str * str)) : str :=
  concat (map (fun p => py "+" ++ pair_text p) pairs).

(** A token name holds none of the characters that structure a port
    expression (the names of the pages are runs over [[a-z0-9]]). *)
Definition name_ok (name : str) : bool :=
  forallb (fun c => negb (char_in c (py "()^+"))) name.

Definition pair_defined (tbl : gmap str Z) (p : str * str) : bool :=
  name_ok p.1 && name_ok p.2
  && bool_decide (is_Some (tbl !! p.1)) && bool_decide (is_Some (tbl !! p.2)).

(** The digits of a port expression: the XOR of each pair, in decimal. *)
Definition port_digits (tbl : gmap str Z) (pairs : list (str * str)) : str :=
  concat (map (fun p => str_of_int (Z.lxor (default 0 (tbl !! p.1))
                                           (default 0 (tbl !! p.2))))
              pairs).

(** Pages of spys.one in miniature. *)
Definition spys_page_pair : str :=
  py "<script>;aaaa=5;bbbb=3;</script><td>10.0.0.1:+(aaaa^bbbb)</td>".
Definition spys_page_chain : str :=
  py ";aaaa=5;bbbb=3;cccc=5^bbbb; 10.0.0.1:+(cccc^aaaa)+(aaaa^bbbb) ".
Definition spys_page_token_xor_token : str :=
  py ";aaaa=5;bbbb=3;cccc=aaaa^bbbb; 10.0.0.1:+(cccc^aaaa) ".

(** A page of xseo.in in miniature. *)
Definition xseo_segments : list segment :=
  [Text (py "<script>x=8;y=0;</script><td>10.0.0.1<script>document.write");
   Site (py "xyxy");
   Text (py "</script></td><script>track(1)</script>")].

(** *** [Proxy_list_org]: candidates as lists of fields *)

(** [Proxy_list_org] is the one class whose [find_proxies] does not return
    the pairs of a [findall]: it returns, for each token of the page, the
    list [b64decode(hp).decode().split(':')].  The setter of [proxies] then
    unpacks each list into [host, port].  [Fields] holds the methods of
    [Provider] as they run on such lists. *)
Module Fields.

(** [for host, port in new]: every item must have exactly two fields. *)
Fixpoint unpack (new : list (list str)) : result (list candidate) :=
  match new with
  | [] => Ok []
  | [host; port] :: new' =>
      bind (unpack new') (fun pairs => Ok ((host, port) :: pairs))
  | _ :: _ => Raise ValueError
  end.

(** The setter of [proxies]: the list comprehension unpacks and filters
    before [self._proxies.update(new)] runs. *)
Definition set_proxies {S} (self : provider S) (new : list (list str))
    : M S unit :=
  match unpack new with
  | Ok pairs => Provider.set_proxies self pairs
  | Raise e => raise e
  end.

(** [try: received = self.find_proxies(page)
     except Exception as e: received = []; log.error(...)], for a
    [find_proxies] that keeps no state. *)
Definition try_find_proxies {S}
    (find_proxies : str -> result (list (list str))) (page : str)
    : M S (list (list str)) :=
  match find_proxies page with
  | Ok received => ret received
  | Raise e => log_error e ;; ret []
  end.

(** [_find_on_page]. *)
Definition _find_on_page {S} (self : provider S) (net : network)
    (find_proxies : str -> result (list (list str))) (req : request)
    : M S unit :=
  let! page := get self net req in
  if negb (truthy page) then ret tt
  else
    let! received := try_find_proxies find_proxies page in
    set_proxies self received.

(** [_find_on_pages], for a list of URLs. *)
Definition _find_on_pages {S} (self : provider S) (net : network)
    (find_proxies : str -> result (list (list str))) (urls : list str)
    : M S unit :=
  match urls with
  | [] => ret tt
  | _ :: _ =>
      gather (map (fun u => _find_on_page self net find_proxies (GET u))
                  (remove_dups urls)) ;;
      ret tt
  end.

End Fields.

Module Proxy_list_org_fields.

(** [[\w=]] *)
Definition token_char (c : ascii) : bool := word c || ascii_eqb c "=".

(** [_pattern = re.compile(r'''Proxy\('([\w=]+)'\)''')] *)
Definition _pattern : regex :=
  Seq [Lit (py "Proxy('"); Grp 0 (Rep 1 None (Cls token_char));
       Chr "'"; Chr ")"].

(** The list comprehension of [find_proxies], token by token.  [decode]
    stands for the standard library's [b64decode(hp).decode()], which
    returns the decoded text or raises. *)
Fixpoint decode_all (decode : str -> result str) (tokens : list str)
    : result (list (list str)) :=
  match tokens with
  | [] => Ok []
  | hp :: tokens' =>
      bind (decode hp) (fun text =>
      bind (decode_all decode tokens') (fun items =>
      Ok (split ":" text :: items)))
  end.

(** [find_proxies]:
<<
    return [b64decode(hp).decode().split(':')
            for hp in self._find_proxies(page)]
>> *)
Definition find_proxies (decode : str -> result str) (page : str)
    : result (list (list str)) :=
  decode_all decode (findall1 _pattern page).

(** [_pipe], as [Proxy_list_org._pipe], with the class's own
    [find_proxies]. *)
Definition _pipe {S} (self : provider S) (net : network)
    (decode : str -> result str) : M S unit :=
  let url := Proxy_list_org.index in
  let! page := get self net (GET url) in
  if negb (truthy page) then ret tt
  else
    let urls :=
      map (fun path => py "http://proxy-list.org/english/" ++ path)
          (findall1 Proxy_list_org.exp page) in
    let urls := urls ++ [url] in
    Fields._find_on_pages self net (find_proxies decode) urls.

End Proxy_list_org_fields.

(** A table of base64 texts and what they decode to, in place of the
    standard library's decoder. *)
Definition demo_decode (hp : str) : result str :=
  if decide (hp = py "MTAuMC4wLjE6ODA=") then Ok (py "10.0.0.1:80")
  else if decide (hp = py "bm9wb3J0") then Ok (py "noport")
  else if decide (hp = py "YTpiOmM=") then Ok (py "a:b:c")
  else Raise (OtherError (py "binascii.Error")).

(** Networks that serve a page of proxy-list.org in miniature: with one
    good token; with a good token and one that decodes to a text without a
    colon. *)
Definition net_plo_good : network :=
  fun _ _ => Reply 200 (Ok (py "<li>Proxy('MTAuMC4wLjE6ODA=')</li>")).
Definition net_plo_no_colon : network :=
  fun _ _ =>
    Reply 200
      (Ok (py "<li>Proxy('MTAuMC4wLjE6ODA=')</li><li>Proxy('bm9wb3J0')</li>")).

(** The items that unpack into [host, port]. *)
Definition is_pair (item : list str) : bool :=
  match item with
  | [_; _] => true
  | _ => false
  end.


(** *** Pipelines *)

(** A coroutine that never ends with an exception. *)
Definition returns {S A} (c : M S A) : Prop :=
  forall st, exists a, fst (c st) = Ok a.

(** A coroutine that returns or ends with the exception [e]. *)
Definition returns_or {S A} (e : exn) (c : M S A) : Prop :=
  forall st, (exists a, fst (c st) = Ok a) \/ fst (c st) = Raise e.

(** A coroutine that issues at most [n] requests. *)
Definition within {S A} (n : nat) (c : M S A) : Prop :=
  forall st, (length (sent (snd (c st))) <= length (sent st) + n)%nat.

(** A coroutine whose final state is always related by [R] to the state it
    started from, whether it returns or raises. *)
Definition keeps {S A} (R : state S -> state S -> Prop) (c : M S A) : Prop :=
  forall st, R st (snd (c st)).

(** The result set has grown by records of this provider: nothing was
    removed, and what was added carries [self.proto] and a non-empty port. *)
Definition grown {S} (self : provider S) (st st' : state S) : Prop :=
  _proxies st ⊆ _proxies st'
  /\ forall r : proxy,
       r ∈ _proxies st' ->
       r ∈ _proxies st \/ (r.2 = proto self /\ r.1.2 <> []).

(** The requests issued in between all satisfy [P]. *)
Definition asked {S} (P : request -> Prop) (st st' : state S) : Prop :=
  exists new, sent st' = new ++ sent st /\ Forall P new.

(** The requests a list of pages stands for. *)
Definition requests_of (urls : pages) : list request :=
  match urls with
  | Urls l => map GET l
  | Kwargs l => l
  end.

(** The number of pages [_find_on_pages] visits. *)
Definition page_count (urls : pages) : nat :=
  match urls with
  | Urls l => length (remove_dups l)
  | Kwargs l => length l
  end.

(** A result set whose records all carry [self.proto] and a non-empty
    port. *)
Definition clean {S} (self : provider S) (s : gset proxy) : Prop :=
  forall r : proxy, r ∈ s -> r.2 = proto self /\ r.1.2 <> [].


(** Text in which no port expression of spys.one starts: every ['+'] is
    followed, within the text, by a character other than ['(']. *)
Fixpoint no_port_code (t : str) : bool :=
  match t with
  | [] => true
  | c :: t' =>
      (if ascii_eqb c "+"
       then match t' with
            | [] => true
            | c' :: _ => negb (ascii_eqb c' "(")
            end
       else true) && no_port_code t'
  end.

(** The [Xseo_in] source with the default retry budget. *)
Definition demo_xseo : provider (gmap str str) :=
  Xseo_in.new (ProtoTuple [py "HTTP"]) 3 echo_pattern.

(** A network that serves a page whose port expression refers to a letter
    the page does not define. *)
Definition net_undefined_letter : network :=
  fun _ _ =>
    Reply 200 (Ok (py "<td>10.0.0.1" ++ site_text xseo_delimiter (py "a"))).

(** A stand-in for the compiled [_pattern] that finds the same three
    candidates on every page: one twice, one without a port. *)
Definition fixed_pattern : str -> list candidate :=
  fun _ => [(py "10.0.0.1", py "8080"); (py "10.0.0.1", py "8080");
            (py "10.0.0.2", [])].

Definition demo_listing : provider unit :=
  Provider.new (py "http://example.org/list")
               (ProtoTuple [py "HTTP"; py "HTTPS"]) 3 fixed_pattern.



(** A GET of the index, or of a page under [base]. *)
Definition index_or_under (index base : str) (req : request) : Prop :=
  req = GET index \/ exists path, req = GET (base ++ path).

(** Two pages of one crawl of spys.one: the second refers to a token that
    only the first defines. *)
Definition spys_first_page : str := py ";aaaa=5; 10.0.0.1:+(aaaa^aaaa) ".
Definition spys_second_page : str := py ";bbbb=3; 10.0.0.2:+(aaaa^bbbb) ".

(** The match object of a port expression of spys.one. *)
Definition port_code_match (pairs : list (str * str)) : matchobj :=
  {| group0 := port_code pairs; groups := [Some (port_code pairs)] |}.

(* ===================================================================== *)
(** ** The fetch engine: [_get] and [get]                                 *)
(* ===================================================================== *)

Section Fetch.
Context {S : Type}.
Implicit Types (self : provider S) (net : network) (req : request)
               (st : state S).

(** One attempt: it always returns, issues exactly one request, and leaves
    the result set and the subclass attributes alone. *)
Lemma _get_returns net req st :
  exists st',
    _get net req st = (Ok (attempt_text net req st 0), st')
    /\ sent st' = req :: sent st
    /\ _proxies st' = _proxies st
    /\ attrs st' = attrs st.
Proof.
  unfold _get, attempt_text, mbind, send. cbn.
  rewrite Nat.add_0_r.
  destruct (_get_try [] (net (length (sent st)) req)) as [page [[]|e]];
    cbn; eexists; repeat split.
Qed.

Lemma attempt_text_shift net req st st' i :
  sent st' = req :: sent st ->
  attempt_text net req st' i = attempt_text net req st (Datatypes.S i).
Proof.
  intros Hs. unfold attempt_text. rewrite Hs. cbn [length].
  now rewrite Nat.add_succ_r.
Qed.

(** The loop stops at the first attempt that yields text. *)
Lemma get_loop_first net req tries : forall page st k,
  (k < length tries)%nat ->
  (forall i, (i < k)%nat -> attempt_text net req st i = []) ->
  attempt_text net req st k <> [] ->
  exists st',
    get_loop net req tries page st = (Ok (Some (attempt_text net req st k)), st')
    /\ length (sent st') = (length (sent st) + Datatypes.S k)%nat
    /\ _proxies st' = _proxies st
    /\ attrs st' = attrs st.
Proof.
  induction tries as [|t tries IH]; intros page st k Hk Hempty Hfull.
  - cbn in Hk. lia.
  - destruct (_get_returns net req st) as (st1 & Hget & Hsent & Hpx & Hat).
    cbn [get_loop]. unfold mbind at 1. rewrite Hget.
    destruct k as [|k].
    + destruct (attempt_text net req st 0) as [|c p] eqn:E; [congruence|].
      cbn. exists st1. rewrite Hsent. cbn [length]. repeat split; auto; lia.
    + rewrite (Hempty 0%nat) by lia. cbn [truthy].
      destruct (IH (Some []) st1 k) as (st' & Hl & Hlen & Hpx' & Hat').
      * cbn in Hk. lia.
      * intros i Hi. rewrite (attempt_text_shift net req st st1 i Hsent).
        apply Hempty. lia.
      * rewrite (attempt_text_shift net req st st1 k Hsent). exact Hfull.
      * exists st'. rewrite Hl, (attempt_text_shift net req st st1 k Hsent).
        rewrite Hlen, Hsent, Hpx', Hat'. cbn [length].
        repeat split; auto; lia.
Qed.

(** The loop runs through all its iterations when every attempt is empty. *)
Lemma get_loop_exhausted net req tries : forall page st,
  (forall i, (i < length tries)%nat -> attempt_text net req st i = []) ->
  exists st',
    get_loop net req tries page st =
      (Ok (match tries with [] => page | _ :: _ => Some [] end), st')
    /\ length (sent st') = (length (sent st) + length tries)%nat
    /\ _proxies st' = _proxies st
    /\ attrs st' = attrs st.
Proof.
  induction tries as [|t tries IH]; intros page st Hempty.
  - cbn. exists st. repeat split; auto; lia.
  - destruct (_get_returns net req st) as (st1 & Hget & Hsent & Hpx & Hat).
    cbn [get_loop]. unfold mbind at 1. rewrite Hget.
    rewrite (Hempty 0%nat) by (cbn; lia). cbn [truthy].
    destruct (IH (Some []) st1) as (st' & Hl & Hlen & Hpx' & Hat').
    + intros i Hi. rewrite (attempt_text_shift net req st st1 i Hsent).
      apply Hempty. cbn. lia.
    + exists st'. rewrite Hl, Hlen, Hsent, Hpx', Hat'. cbn [length].
      repeat split; auto; try lia.
      destruct tries; reflexivity.
Qed.

(** The loop never issues more requests than it has iterations, and binds
    [page] as soon as it has one. *)
Lemma get_loop_bounded net req tries : forall page st,
  exists r st',
    get_loop net req tries page st = (Ok r, st')
    /\ (length (sent st') <= length (sent st) + length tries)%nat
    /\ (length (sent st) <= length (sent st'))%nat
    /\ (tries <> [] -> exists p, r = Some p)
    /\ (tries <> [] -> length (sent st) < length (sent st'))%nat
    /\ (tries = [] -> r = page /\ st' = st)
    /\ _proxies st' = _proxies st
    /\ attrs st' = attrs st.
Proof.
  induction tries as [|t tries IH]; intros page st.
  - exists page, st. cbn. repeat split; auto; try lia; congruence.
  - destruct (_get_returns net req st) as (st1 & Hget & Hsent & Hpx & Hat).
    cbn [get_loop]. unfold mbind at 1. rewrite Hget.
    destruct (attempt_text net req st 0) as [|c p]; cbn [truthy].
    2:{ eexists _, st1. cbn. rewrite Hsent. cbn [length].
        repeat split; eauto; try lia; congruence. }
    + destruct (IH (Some []) st1)
        as (r & st' & Hl & Hle & Hge & Hsome & _ & Hnil & Hpx' & Hat').
      exists r, st'. rewrite Hl. rewrite Hsent in Hle, Hge. cbn [length] in *.
      repeat split; auto; try lia; try congruence.
      intros _. destruct tries as [|t' tries].
      * destruct Hnil as [-> _]; eauto.
      * apply Hsome. discriminate.
Qed.

Lemma range_length (n : Z) : length (range n) = Z.to_nat n.
Proof. unfold range. now rewrite length_map, length_seq. Qed.

Lemma range_nil (n : Z) : n <= 0 -> range n = [].
Proof.
  intros Hn. unfold range. replace (Z.to_nat n) with 0%nat by lia.
  reflexivity.
Qed.

Lemma range_cons (n : Z) : 1 <= n -> range n <> [].
Proof.
  intros Hn Hnil. apply (f_equal (@length Z)) in Hnil.
  rewrite range_length in Hnil. cbn in Hnil. lia.
Qed.

End Fetch.

(** C1 (as the code behaves): on a response whose status is not 200, [_get]
    raises and logs [BadStatusError], but the body read before the status
    check is what it returns: the attempt contributes the non-200 body, not
    empty text, and with a non-empty body [get] stops retrying and returns
    that body after a single request. *)
Theorem _get_bad_status_keeps_body {S} (self : provider S) (net : network)
    (req : request) (st : state S) (status : Z) (body : str) :
  net (length (sent st)) req = Reply status (Ok body) ->
  status <> 200 ->
  (exists st',
     _get net req st = (Ok body, st')
     /\ debug_log st' = (req_url req, BadStatusError status) :: debug_log st)
  /\ (1 <= _max_tries self -> body <> [] ->
      fst (get self net req st) = Ok body
      /\ issued st (snd (get self net req st)) = 1%nat).
Proof.
  intros Hnet Hstatus.
  assert (Htext : attempt_text net req st 0 = body).
  { unfold attempt_text. rewrite Nat.add_0_r, Hnet. cbn.
    destruct (status =? 200) eqn:E; [lia | reflexivity]. }
  split.
  - unfold _get, mbind, send. cbn. rewrite Hnet. cbn.
    destruct (status =? 200) eqn:E; [lia|]. cbn.
    eexists. split; reflexivity.
  - intros Hbudget Hbody.
    destruct (get_loop_first net req (range (_max_tries self)) None st 0)
      as (st' & Hl & Hlen & _).
    + rewrite range_length. lia.
    + intros i Hi. lia.
    + now rewrite Htext.
    + unfold get, mbind. rewrite Hl, Htext. cbn. unfold issued.
      split; [reflexivity | lia].
Qed.

Lemma _get_bad_status_keeps_body_witness :
  _get net_404 (GET (py "http://example.org/list")) (__init__ tt)
  = (Ok (py "Not Found"),
     {| _proxies := ∅; attrs := tt;
        sent := [GET (py "http://example.org/list")];
        debug_log := [(py "http://example.org/list", BadStatusError 404)];
        error_log := [] |})
  /\ fst (get (demo_provider 3) net_404 (GET (py "http://example.org/list"))
              (__init__ tt)) = Ok (py "Not Found").
Proof.
  destruct (_get_bad_status_keeps_body (demo_provider 3) net_404
              (GET (py "http://example.org/list")) (__init__ tt) 404
              (py "Not Found") eq_refl ltac:(lia)) as [_ Hget].
  split; [reflexivity|].
  apply Hget; [cbn; lia | discriminate].
Defined.

(** C2: with a retry budget [n >= 1], [get] issues at most [n] requests;
    it stops at the first attempt that yields non-empty text and returns
    that text; it returns empty text once all [n] attempts have yielded
    empty text.  With budget 3, two empty attempts and a third that yields a
    body return that body after exactly three requests. *)
Theorem get_retries_within_budget {S} (self : provider S) (net : network)
    (req : request) (st : state S) :
  1 <= _max_tries self ->
  let n := Z.to_nat (_max_tries self) in
  let r := get self net req st in
  (issued st (snd r) <= n)%nat
  /\ (forall k, (k < n)%nat ->
        (forall i, (i < k)%nat -> attempt_text net req st i = []) ->
        attempt_text net req st k <> [] ->
        fst r = Ok (attempt_text net req st k)
        /\ issued st (snd r) = Datatypes.S k)
  /\ ((forall i, (i < n)%nat -> attempt_text net req st i = []) ->
      fst r = Ok [] /\ issued st (snd r) = n)
  /\ (forall body, _max_tries self = 3 ->
        attempt_text net req st 0 = [] ->
        attempt_text net req st 1 = [] ->
        attempt_text net req st 2 = body -> body <> [] ->
        fst r = Ok body /\ issued st (snd r) = 3%nat).
Proof.
  intros Hbudget n r.
  assert (Hfirst : forall k, (k < n)%nat ->
        (forall i, (i < k)%nat -> attempt_text net req st i = []) ->
        attempt_text net req st k <> [] ->
        fst r = Ok (attempt_text net req st k)
        /\ issued st (snd r) = Datatypes.S k).
  { intros k Hk Hempty Hfull.
    destruct (get_loop_first net req (range (_max_tries self)) None st k)
      as (st' & Hl & Hlen & _); auto.
    - now rewrite range_length.
    - subst r. unfold get, mbind. rewrite Hl. cbn. unfold issued.
      split; [reflexivity | lia]. }
  split; [|split; [exact Hfirst|split]].
  - subst r. unfold get, mbind.
    destruct (get_loop_bounded net req (range (_max_tries self)) None st)
      as (p & st' & Hl & Hle & Hge & Hsome & _).
    rewrite Hl. rewrite range_length in Hle.
    destruct (Hsome (range_cons _ Hbudget)) as [page ->]. cbn.
    unfold issued. subst n. lia.
  - intros Hempty.
    destruct (get_loop_exhausted net req (range (_max_tries self)) None st)
      as (st' & Hl & Hlen & _).
    { intros i Hi. apply Hempty. now rewrite range_length in Hi. }
    subst r. unfold get, mbind. rewrite Hl.
    rewrite range_length in Hlen.
    destruct (range (_max_tries self)) eqn:E.
    { exfalso. now apply (range_cons _ Hbudget). }
    cbn. unfold issued. subst n. split; [reflexivity | lia].
  - intros body H3 H0 H1 H2 Hbody.
    destruct (Hfirst 2%nat) as [Hr Hi].
    + subst n. rewrite H3. cbn. lia.
    + intros i Hi. destruct i as [|[|i]]; auto; lia.
    + now rewrite H2.
    + now rewrite Hr, Hi, H2.
Qed.

Lemma get_retries_within_budget_witness :
  fst (get (demo_provider 3) net_third_time
           (GET (py "http://example.org/list")) (__init__ tt))
    = Ok (py "10.0.0.1:8080")
  /\ issued (__init__ tt)
       (snd (get (demo_provider 3) net_third_time
                 (GET (py "http://example.org/list")) (__init__ tt))) = 3%nat.
Proof.
  pose proof (get_retries_within_budget (demo_provider 3) net_third_time
                (GET (py "http://example.org/list")) (__init__ tt)
                ltac:(cbn; lia)) as (_ & _ & _ & H3).
  apply (H3 (py "10.0.0.1:8080")); try reflexivity.
  discriminate.
Defined.

(** C10: with [max_tries >= 1] the loop body of [get] runs at least once and
    [get] returns a string; with [max_tries <= 0] the body never runs, no
    request is issued, and [return page] raises on the unbound local. *)
Theorem get_needs_positive_budget {S} (self : provider S) (net : network)
    (req : request) (st : state S) :
  (1 <= _max_tries self ->
   exists page,
     fst (get self net req st) = Ok page
     /\ (1 <= issued st (snd (get self net req st)))%nat)
  /\ (_max_tries self <= 0 ->
      get self net req st = (Raise UnboundLocalError, st)).
Proof.
  split.
  - intros Hbudget. unfold get, mbind.
    destruct (get_loop_bounded net req (range (_max_tries self)) None st)
      as (p & st' & Hl & _ & _ & Hsome & Hlt & _).
    rewrite Hl.
    destruct (Hsome (range_cons _ Hbudget)) as [page ->].
    specialize (Hlt (range_cons _ Hbudget)).
    exists page. cbn. unfold issued. split; [reflexivity | lia].
  - intros Hbudget. unfold get, mbind.
    rewrite (range_nil _ Hbudget). reflexivity.
Qed.

Lemma get_needs_positive_budget_witness :
  (exists page,
     fst (get (demo_provider 3) net_404 (GET (py "http://example.org/list"))
              (__init__ tt)) = Ok page)
  /\ get (demo_provider 0) net_404 (GET (py "http://example.org/list"))
         (__init__ tt) = (Raise UnboundLocalError, __init__ tt).
Proof.
  split.
  - destruct (proj1 (get_needs_positive_budget (demo_provider 3) net_404
                       (GET (py "http://example.org/list")) (__init__ tt))
                    ltac:(cbn; lia)) as (page & Hpage & _).
    exists page. exact Hpage.
  - apply (proj2 (get_needs_positive_budget (demo_provider 0) net_404
                    (GET (py "http://example.org/list")) (__init__ tt))).
    cbn. lia.
Defined.

(* ===================================================================== *)
(** ** The aggregator: the setter of [proxies]                            *)
(* ===================================================================== *)

Section Aggregator.
Context {S : Type}.
Implicit Types (self : provider S) (st : state S) (new : list candidate).

(** What the list comprehension of the setter keeps. *)
Lemma elem_of_tagged self new host port pr :
  (host, port, pr) ∈ tagged self new
  <-> (host, port) ∈ new /\ port <> [] /\ pr = proto self.
Proof.
  unfold tagged. rewrite list_elem_of_omap. split.
  - intros ([h p] & Hin & Hf). destruct p as [|c p]; cbn in Hf; [discriminate|].
    inversion Hf; subst. split; [exact Hin|]. split; [discriminate|reflexivity].
  - intros (Hin & Hport & ->). exists (host, port). split; [exact Hin|].
    destruct port; [congruence | reflexivity].
Qed.

Lemma _proxies_set_proxies self new st :
  _proxies (snd (set_proxies self new st))
  = _proxies st ∪ list_to_set (tagged self new).
Proof. reflexivity. Qed.

Lemma elem_of_merges self batches : forall st (r : proxy),
  r ∈ _proxies (merges self batches st)
  <-> r ∈ _proxies st \/ exists new, new ∈ batches /\ r ∈ tagged self new.
Proof.
  induction batches as [|b batches IH]; intros st r.
  - cbn. split; [auto|]. intros [H|(new & Hin & _)]; [exact H|].
    inversion Hin.
  - change (merges self (b :: batches) st)
      with (merges self batches (snd (set_proxies self b st))).
    rewrite IH, _proxies_set_proxies, elem_of_union, elem_of_list_to_set.
    split.
    + intros [[H|H]|(new & Hin & Hr)]; [now left| |].
      * right. exists b. split; [left | exact H].
      * right. exists new. split; [now right | exact Hr].
    + intros [H|(new & Hin & Hr)]; [now left; left|].
      apply elem_of_cons in Hin as [->|Hin].
      * left. now right.
      * right. now exists new.
Qed.

End Aggregator.

(** C7: a merge discards every candidate whose port is empty and stores
    every other candidate as [(host, port, self.proto)]: the records of the
    result set after the merge are those it held before and the candidates
    with a non-empty port, tagged with the provider's [proto]. *)
Theorem proxies_setter_discards_and_tags {S} (self : provider S)
    (new : list candidate) (st : state S) :
  fst (set_proxies self new st) = Ok tt
  /\ forall host port pr,
       (host, port, pr) ∈ _proxies (snd (set_proxies self new st))
       <-> (host, port, pr) ∈ _proxies st
           \/ ((host, port) ∈ new /\ port <> [] /\ pr = proto self).
Proof.
  split; [reflexivity|]. intros host port pr.
  rewrite _proxies_set_proxies, elem_of_union, elem_of_list_to_set.
  now rewrite elem_of_tagged.
Qed.

Lemma proxies_setter_discards_and_tags_witness :
  let self := demo_provider 3 in
  let new := [(py "10.0.0.1", py "8080"); (py "10.0.0.2", [])] in
  let st' := snd (set_proxies self new (__init__ tt)) in
  (py "10.0.0.1", py "8080", proto self) ∈ _proxies st'
  /\ (py "10.0.0.2", [], proto self) ∉ _proxies st'.
Proof.
  intros self new st'.
  pose proof (proj2 (proxies_setter_discards_and_tags self new (__init__ tt)))
    as Hset.
  split.
  - apply Hset. right. repeat split; [left | discriminate].
  - intros Hin. apply Hset in Hin as [Hin|(_ & Hport & _)].
    + cbn in Hin. now apply not_elem_of_empty in Hin.
    + now apply Hport.
Defined.

(** C8: after any sequence of merges on a freshly constructed provider, no
    two records of the result set share their [(host, port)]; and the result
    set does not depend on the order in which the candidate lists were
    merged. *)
Theorem result_set_has_no_duplicates {S} (self : provider S)
    (batches : list (list candidate)) (a : S) :
  (forall r1 r2 : proxy,
     r1 ∈ _proxies (merges self batches (__init__ a)) ->
     r2 ∈ _proxies (merges self batches (__init__ a)) ->
     host_port r1 = host_port r2 -> r1 = r2)
  /\ (forall batches' (st : state S),
        batches ≡ₚ batches' ->
        _proxies (merges self batches' st) = _proxies (merges self batches st)).
Proof.
  split.
  - assert (Htag : forall r : proxy,
              r ∈ _proxies (merges self batches (__init__ a)) ->
              r.2 = proto self).
    { intros [[h p] pr] Hr. apply elem_of_merges in Hr as [Hr|(new & _ & Hr)].
      - cbn in Hr. now apply not_elem_of_empty in Hr.
      - now apply elem_of_tagged in Hr as (_ & _ & ->). }
    intros [[h1 p1] pr1] [[h2 p2] pr2] H1 H2 Hkey.
    apply Htag in H1, H2. cbn in H1, H2, Hkey.
    inversion Hkey; subst. reflexivity.
  - intros batches' st Hperm. apply set_eq. intros r.
    rewrite !elem_of_merges. split.
    + intros [H|(new & Hin & Hr)]; [now left|]. right. exists new.
      split; [|exact Hr]. now rewrite Hperm.
    + intros [H|(new & Hin & Hr)]; [now left|]. right. exists new.
      split; [|exact Hr]. now rewrite <- Hperm.
Qed.

Lemma result_set_has_no_duplicates_witness :
  let self := demo_provider 3 in
  let b1 := [(py "10.0.0.1", py "8080"); (py "10.0.0.2", py "3128")] in
  let b2 := [(py "10.0.0.1", py "8080")] in
  size (_proxies (merges self [b1; b2] (__init__ tt))) = 2%nat
  /\ _proxies (merges self [b2; b1] (__init__ tt))
     = _proxies (merges self [b1; b2] (__init__ tt)).
Proof.
  intros self b1 b2. split.
  - vm_compute. reflexivity.
  - apply (proj2 (result_set_has_no_duplicates self [b1; b2] tt)).
    apply Permutation_swap.
Defined.

(** C9: merging the same candidate list twice yields the same result set,
    hence a result set of the same size, as merging it once. *)
Theorem merge_is_idempotent {S} (self : provider S) (new : list candidate)
    (st : state S) :
  let once := snd (set_proxies self new st) in
  let twice := snd (set_proxies self new once) in
  _proxies twice = _proxies once
  /\ size (_proxies twice) = size (_proxies once).
Proof.
  intros once twice.
  assert (H : _proxies twice = _proxies once).
  { subst once twice. rewrite !_proxies_set_proxies. apply set_eq. intros r.
    rewrite !elem_of_union. tauto. }
  split; [exact H | now rewrite H].
Qed.

(* ===================================================================== *)
(** ** Discovery: the index fetch of a source                             *)
(* ===================================================================== *)

Section Discovery.
Context {S : Type}.
Implicit Types (self : provider S) (net : network) (req : request)
               (st : state S).

(** [get] touches only the record of issued requests and the debug log. *)
Lemma get_preserves self net req st :
  _proxies (snd (get self net req st)) = _proxies st
  /\ attrs (snd (get self net req st)) = attrs st.
Proof.
  unfold get, mbind.
  destruct (get_loop_bounded net req (range (_max_tries self)) None st)
    as (r & st' & Hl & _ & _ & _ & _ & _ & Hpx & Hat).
  rewrite Hl. destruct r; cbn; auto.
Qed.

(** A pipeline that starts with [page = await self.get(...)] followed by
    [if not page: return] is an empty crawl when that fetch returns ['']. *)
Lemma guarded_index_empty self net req (k : str -> M S unit) st :
  fst (get self net req st) = Ok [] ->
  empty_crawl (let! page := get self net req in
               if negb (truthy page) then ret tt else k page) st.
Proof.
  intros Hget. pose proof (get_preserves self net req st) as [Hpx _].
  unfold empty_crawl, mbind.
  destruct (get self net req st) as [[page|e] st1]; cbn in Hget;
    [|discriminate].
  inversion Hget; subst page. cbn. auto.
Qed.

Lemma index_pages_preserve self net domains : forall st,
  _proxies (snd (Blogspot_com_base.index_pages self net domains st))
  = _proxies st.
Proof.
  unfold Blogspot_com_base.index_pages.
  induction domains as [|d domains IH]; intros st; [reflexivity|].
  cbn [map gather]. unfold mbind at 1.
  pose proof (get_preserves self net
                (GET (py "http://" ++ d ++ py "/")) st) as [Hpx _].
  destruct (get self net _ st) as [[page|e] st1]; [|exact Hpx].
  unfold mbind at 1. specialize (IH st1).
  destruct (gather _ st1) as [[pages|e] st2]; cbn in *; congruence.
Qed.

End Discovery.

(** C6: a source whose discovery fetch returns empty text completes its run
    without an error and with the result set it started from, which is
    empty for a freshly constructed provider.  This holds for the single
    page of a plain [Provider], for the index page of [Webanetlabs_net],
    [Checkerproxy_net], [Proxy_list_org], [My_proxy_com] and [Spys_ru], and
    for the index pages of [Blogspot_com]. *)
Theorem empty_discovery_is_empty_crawl {S} (self : provider S)
    (net : network) (st : state S) :
  (fst (get self net (GET (url self)) st) = Ok [] ->
   empty_crawl (Provider._pipe self net) st)
  /\ (fst (get self net (GET Webanetlabs_net.index) st) = Ok [] ->
      empty_crawl (Webanetlabs_net._pipe self net) st)
  /\ (fst (get self net (GET Checkerproxy_net.index) st) = Ok [] ->
      empty_crawl (Checkerproxy_net._pipe self net) st)
  /\ (fst (get self net (GET Proxy_list_org.index) st) = Ok [] ->
      empty_crawl (Proxy_list_org._pipe self net) st)
  /\ (fst (get self net (GET My_proxy_com.index) st) = Ok [] ->
      empty_crawl (My_proxy_com._pipe self net) st)
  /\ (fst (get self net (GET spys_index) st) = Ok [] ->
      empty_crawl (Spys_ru._pipe self net) st)
  /\ (forall pages,
        fst (Blogspot_com_base.index_pages self net Blogspot_com.domains st)
          = Ok pages ->
        join pages = [] ->
        empty_crawl (Blogspot_com._pipe self net) st)
  /\ (forall pipe, empty_crawl pipe st -> _proxies st = ∅ ->
        _proxies (snd (pipe st)) = ∅).
Proof.
  repeat match goal with |- _ /\ _ => split end;
    try (intros Hget; now apply guarded_index_empty).
  - intros pages Hidx Hjoin.
    pose proof (index_pages_preserve self net Blogspot_com.domains st) as Hpx.
    unfold empty_crawl, Blogspot_com._pipe, Blogspot_com_base._pipe, mbind.
    destruct (Blogspot_com_base.index_pages self net Blogspot_com.domains st)
      as [[pages'|e] st1]; cbn in Hidx; [|discriminate].
    inversion Hidx; subst pages'. rewrite Hjoin. cbn. auto.
  - intros pipe [_ Hpx] Hempty. now rewrite Hpx.
Qed.

Lemma empty_discovery_is_empty_crawl_witness :
  empty_crawl (Webanetlabs_net._pipe (demo_provider 3) net_down) (__init__ tt)
  /\ empty_crawl (Spys_ru._pipe demo_spys net_down)
                 (__init__ Spys_ru.charEqNum)
  /\ _proxies (snd (Spys_ru._pipe demo_spys net_down
                       (__init__ Spys_ru.charEqNum))) = ∅.
Proof.
  pose proof (empty_discovery_is_empty_crawl (demo_provider 3) net_down
                (__init__ tt)) as (_ & Hweb & _).
  pose proof (empty_discovery_is_empty_crawl demo_spys net_down
                (__init__ Spys_ru.charEqNum))
    as (_ & _ & _ & _ & _ & Hspys & _ & Hfresh).
  split; [|split].
  - apply Hweb. reflexivity.
  - apply Hspys. reflexivity.
  - apply Hfresh; [apply Hspys|]; reflexivity.
Defined.

(** The link-based sources contain a discovery page without links: no link,
    no page to visit, no error. *)
Lemma Webanetlabs_net_no_links {S} (self : provider S) (net : network)
    (st : state S) (page : str) :
  fst (get self net (GET Webanetlabs_net.index) st) = Ok page ->
  findall1 Webanetlabs_net.exp page = [] ->
  empty_crawl (Webanetlabs_net._pipe self net) st.
Proof.
  intros Hget Hnone.
  pose proof (get_preserves self net (GET Webanetlabs_net.index) st)
    as [Hpx _].
  unfold empty_crawl, Webanetlabs_net._pipe, mbind.
  destruct (get self net _ st) as [[page'|e] st1]; cbn in Hget;
    [|discriminate].
  inversion Hget; subst page'.
  destruct (truthy page); cbn [negb]; [|cbn; auto].
  rewrite Hnone. cbn. auto.
Qed.

(** C5 (as the code behaves): when the index page of [Spys_ru] is fetched
    with some text in which no session token is found, indexing the empty
    list of matches raises [IndexError], and [_pipe] ends with that
    exception instead of returning. *)
Theorem Spys_ru_pipe_raises_without_token {S} (self : provider S)
    (net : network) (st : state S) (page : str) :
  fst (get self net (GET spys_index) st) = Ok page ->
  page <> [] ->
  findall1 Spys_ru.expSession page = [] ->
  fst (Spys_ru._pipe self net st) = Raise IndexError.
Proof.
  intros Hget Hpage Hnone. unfold Spys_ru._pipe, mbind.
  fold spys_index.
  destruct (get self net (GET spys_index) st) as [[page'|e] st1];
    cbn in Hget; [|discriminate].
  inversion Hget; subst page'.
  destruct page as [|c page]; [congruence|]. cbn [truthy negb].
  rewrite Hnone. reflexivity.
Qed.

Lemma Spys_ru_pipe_raises_without_token_witness :
  fst (Spys_ru._pipe demo_spys net_blocked (__init__ Spys_ru.charEqNum))
  = Raise IndexError.
Proof.
  apply (Spys_ru_pipe_raises_without_token demo_spys net_blocked
           (__init__ Spys_ru.charEqNum) (py "<html>Access denied</html>"));
    [reflexivity | discriminate | vm_compute; reflexivity].
Defined.

(* ===================================================================== *)
(** ** The matcher on literal prefixes and on runs of a class             *)
(* ===================================================================== *)

Section Matcher.
Implicit Types (r : regex) (k : mstate -> option mstate) (s w : str).

Lemma prev_after_app before w1 w2 :
  prev_after before (w1 ++ w2) = prev_after (prev_after before w1) w2.
Proof. unfold prev_after. now rewrite foldl_app. Qed.

Lemma ascii_eqb_refl (c : ascii) : ascii_eqb c c = true.
Proof. apply Ascii.eqb_refl. Qed.

Lemma ascii_eqb_eq (a b : ascii) : ascii_eqb a b = true <-> a = b.
Proof. apply Ascii.eqb_eq. Qed.

(** A literal prefix of the pattern reads the same prefix of the text. *)
Lemma m_literal w : forall rs before s caps0 k,
  m (Seq (map Chr w ++ rs)) {| prev := before; rest := w ++ s; caps := caps0 |} k
  = m (Seq rs) {| prev := prev_after before w; rest := s; caps := caps0 |} k.
Proof.
  induction w as [|c w IH]; intros rs before s caps0 k; [reflexivity|].
  cbn [map app Seq m rest]. rewrite ascii_eqb_refl.
  unfold advance. cbn [caps]. apply IH.
Qed.

(** The text read between two positions of one scan. *)
Lemma consumed_app before after w s c1 c2 :
  consumed {| prev := before; rest := w ++ s; caps := c1 |}
           {| prev := after; rest := s; caps := c2 |} = w.
Proof.
  unfold consumed. cbn [rest]. rewrite length_app.
  replace (length w + length s - length s)%nat with (length w) by lia.
  apply take_app_length.
Qed.

(** A greedy repetition of a class reads a whole run of the class when the
    run ends the text or is followed by a character outside the class, and
    the rest of the pattern accepts what follows. *)
Lemma rep_run (p : ascii -> bool)
    (body : mstate -> (mstate -> option mstate) -> option mstate)
    k final s caps0 :
  (forall st k',
     body st k' = match rest st with
                  | c' :: t => if p c' then k' (advance c' t st) else None
                  | [] => None
                  end) ->
  match s with [] => true | c :: _ => negb (p c) end = true ->
  forall run fuel lo before,
    forallb p run = true ->
    (length run <= fuel)%nat ->
    (lo <= length run)%nat ->
    k {| prev := prev_after before run; rest := s; caps := caps0 |}
      = Some final ->
    rep body fuel lo None
        {| prev := before; rest := run ++ s; caps := caps0 |} k = Some final.
Proof.
  intros Hbody Hs run.
  induction run as [|c run IH]; intros fuel lo before Hrun Hfuel Hlo Hk.
  - cbn in Hlo. assert (lo = 0%nat) as -> by lia.
    cbn [app prev_after foldl] in *.
    destruct fuel as [|fuel]; cbn [rep Nat.eqb]; [exact Hk|].
    cbn [hi_allows]. rewrite Hbody. cbn [rest].
    destruct s as [|c s]; [now rewrite Hk|].
    apply negb_true_iff in Hs. rewrite Hs. now rewrite Hk.
  - cbn [forallb] in Hrun. apply andb_true_iff in Hrun as [Hc Hrun].
    destruct fuel as [|fuel]; [cbn in Hfuel; lia|].
    cbn [rep hi_allows app]. rewrite Hbody. cbn [rest]. rewrite Hc.
    unfold advance. cbn [rest caps prev length].
    replace (length (run ++ s) <? Datatypes.S (length (run ++ s)))%nat
      with true by (symmetry; apply Nat.ltb_lt; lia).
    cbn [hi_pred].
    rewrite (IH fuel (Nat.pred lo) (Some c)); auto.
    + cbn in Hfuel. lia.
    + cbn in Hlo. lia.
Qed.

Lemma m_rep_class_run (p : ascii -> bool) k final s caps0 run lo before :
  match s with [] => true | c :: _ => negb (p c) end = true ->
  forallb p run = true ->
  (lo <= length run)%nat ->
  k {| prev := prev_after before run; rest := s; caps := caps0 |}
    = Some final ->
  m (Rep lo None (Cls p))
    {| prev := before; rest := run ++ s; caps := caps0 |} k = Some final.
Proof.
  intros Hs Hrun Hlo Hk. cbn [m rest].
  apply (rep_run p); auto.
  rewrite length_app. lia.
Qed.

End Matcher.

(* ===================================================================== *)
(** ** Scheme A: the rewriting of port expressions                        *)
(* ===================================================================== *)

Section SchemeA.
Variable delimiter : str.

(** Inside a match the scan only counts characters down. *)
Lemma finditer_skip (r : regex) (n : nat) (u s : str) : forall before,
  finditer r n before (u ++ s) (length u)
  = finditer r n (prev_after before u) s 0.
Proof.
  induction u as [|c u IH]; intros before; [reflexivity|].
  cbn [app length finditer]. apply IH.
Qed.

Lemma joined_cons (ch : ascii) (letters : str) :
  joined (ch :: letters)
  = ch :: match letters with
          | [] => []
          | _ :: _ => "+"%char :: joined letters
          end.
Proof. destruct letters; reflexivity. Qed.

Lemma joined_class (letters : str) :
  forallb lower letters = true ->
  forallb letter_or_plus (joined letters) = true.
Proof.
  induction letters as [|ch letters IH]; intros Hl; [reflexivity|].
  cbn [forallb] in Hl. apply andb_true_iff in Hl as [Hch Hl].
  rewrite joined_cons. cbn [forallb]. unfold letter_or_plus at 1.
  rewrite Hch. cbn [orb andb].
  destruct letters as [|ch' letters]; [reflexivity|].
  cbn [forallb]. rewrite (IH Hl). reflexivity.
Qed.

Lemma joined_length (letters : str) :
  letters <> [] -> (1 <= length (joined letters))%nat.
Proof.
  destruct letters as [|ch letters]; [congruence|].
  intros _. rewrite joined_cons. cbn. lia.
Qed.

(** At a port expression the (site_pattern delimiter) matches the expression, no more and no
    less, and its group holds the joined letters. *)
Lemma site_match (letters s : str) (before : option ascii) :
  letters <> [] ->
  forallb lower letters = true ->
  match_at (site_pattern delimiter) 1 false before (site_text delimiter letters ++ s)
  = Some {| group0 := site_text delimiter letters;
            groups := [Some (joined letters)] |}.
Proof.
  intros Hne Hlower. unfold match_at, site_pattern.
  set (final := {| prev := Some ")"%char; rest := s;
                   caps := [Some (joined letters)] |}).
  set (st0 := {| prev := before; rest := site_text delimiter letters ++ s;
                 caps := replicate 1 None |}).
  assert (Hm : m (Seq (map Chr (py "(" ++ delimiter ++ py "+") ++
                       [Grp 0 (Rep 1 None (Cls letter_or_plus)); Chr ")"]))
                 st0
                 (fun st' =>
                    if false && (length (rest st')
                                 =? length (site_text delimiter letters ++ s))%nat
                    then None else Some st') = Some final).
  { subst st0. unfold site_text.
    replace ((py "(" ++ delimiter ++ py "+" ++ joined letters ++ py ")") ++ s)
      with ((py "(" ++ delimiter ++ py "+")
            ++ (joined letters ++ (")"%char :: s)))
      by (rewrite <- !app_assoc; reflexivity).
    rewrite m_literal.
    change (m (Seq [Grp 0 (Rep 1 None (Cls letter_or_plus)); Chr ")"]) ?st ?k)
      with (m (Rep 1 None (Cls letter_or_plus)) st
              (fun st' => m (Cat (Chr ")") Eps)
                            (set_group 0 (consumed st st') st') k)).
    apply m_rep_class_run.
    - reflexivity.
    - now apply joined_class.
    - now apply joined_length.
    - rewrite consumed_app. reflexivity. }
  rewrite Hm. subst st0 final. now rewrite consumed_app.
Qed.

(** The scan steps over a port expression in one match. *)
Lemma finditer_site (letters s : str) (before : option ascii) :
  letters <> [] ->
  forallb lower letters = true ->
  finditer (site_pattern delimiter) 1 before (site_text delimiter letters ++ s) 0
  = Found {| group0 := site_text delimiter letters;
             groups := [Some (joined letters)] |}
    :: finditer (site_pattern delimiter) 1 (Some ")"%char) s 0.
Proof.
  intros Hne Hlower.
  pose proof (site_match letters s before Hne Hlower) as Hm.
  assert (Hsite : site_text delimiter letters
                  = "("%char :: (delimiter ++ py "+" ++ joined letters) ++ py ")").
  { unfold site_text. cbn [py list_ascii_of_string app].
    now rewrite <- !app_assoc. }
  rewrite Hsite in *. cbn [app finditer]. cbn [app] in Hm. rewrite Hm.
  cbn [group0 length]. f_equal.
  rewrite finditer_skip, prev_after_app. reflexivity.
Qed.

(** A literal that the text departs from is not read. *)
Lemma m_literal_diverges (lit : str) : forall rs t s before caps0 k,
  diverges lit t = true ->
  m (Seq (map Chr lit ++ rs))
    {| prev := before; rest := t ++ s; caps := caps0 |} k = None.
Proof.
  induction lit as [|a lit IH]; intros rs t s before caps0 k Hd;
    [destruct t; discriminate|].
  destruct t as [|b t]; [discriminate|].
  cbn [diverges] in Hd. cbn [map app Seq m rest].
  destruct (ascii_eqb a b); [|reflexivity].
  unfold advance. cbn [caps]. now apply IH.
Qed.

(** No port expression starts at a ['('] after which the text departs from
    the opening of a port expression, nor at any other character. *)
Lemma site_no_match (c : ascii) (t s : str) (before : option ascii)
    (must_advance : bool) :
  (if ascii_eqb c "(" then diverges (delimiter ++ py "+") t else true) = true ->
  match_at (site_pattern delimiter) 1 must_advance before (c :: t ++ s) = None.
Proof.
  intros Hc. unfold match_at, site_pattern.
  cbn [py list_ascii_of_string app map Seq m rest].
  unfold ascii_eqb in *. rewrite (Ascii.eqb_sym "(" c).
  destruct (Ascii.eqb c "("); [|reflexivity].
  unfold advance. cbn [caps].
  change (Cat (Chr ?x) (Seq ?rs)) with (Seq (Chr x :: rs)).
  change ("+"%char :: []) with (py "+") in *.
  now rewrite m_literal_diverges.
Qed.

(** The scan copies plain text character by character. *)
Lemma finditer_plain (t s : str) : forall before,
  plain delimiter t = true ->
  finditer (site_pattern delimiter) 1 before (t ++ s) 0
  = map Gap t ++ finditer (site_pattern delimiter) 1 (prev_after before t) s 0.
Proof.
  induction t as [|c t IH]; intros before Hplain; [reflexivity|].
  cbn [app finditer map]. cbn [plain] in Hplain.
  apply andb_true_iff in Hplain as [Hc Hplain].
  rewrite (site_no_match c t s before false Hc).
  f_equal. now apply IH.
Qed.

Lemma finditer_end (before : option ascii) :
  finditer (site_pattern delimiter) 1 before [] 0 = [].
Proof. reflexivity. Qed.

Lemma sub_events_gaps (repl : matchobj -> result str) (t : str)
    (evs : list event) :
  sub_events repl (map Gap t ++ evs)
  = bind (sub_events repl evs) (fun out => Ok (t ++ out)).
Proof.
  induction t as [|c t IH]; cbn [map app sub_events].
  - destruct (sub_events repl evs); reflexivity.
  - rewrite IH. destruct (sub_events repl evs); reflexivity.
Qed.

(** The look-ups of [char_js_port_to_num] on the joined letters. *)
Lemma lookup_chars_joined (charEqNum : gmap str str) (letters : str) :
  forallb (fun ch => lower ch && bool_decide (is_Some (charEqNum !! [ch])))
          letters = true ->
  Xseo_in.lookup_chars charEqNum (joined letters)
  = Ok (map (fun ch => default [] (charEqNum !! [ch])) letters).
Proof.
  induction letters as [|ch letters IH]; intros Hdef; [reflexivity|].
  cbn [forallb] in Hdef. apply andb_true_iff in Hdef as [Hch Hdef].
  apply andb_true_iff in Hch as [Hlow Hsome].
  apply bool_decide_eq_true in Hsome as [v Hv].
  rewrite joined_cons. cbn [Xseo_in.lookup_chars].
  assert (Hplus : ascii_eqb ch "+" = false).
  { destruct (ascii_eqb ch "+") eqn:E; [|reflexivity].
    apply ascii_eqb_eq in E. subst ch. discriminate. }
  rewrite Hplus. cbn [negb map]. unfold Dict.getitem at 1. rewrite Hv.
  cbn [bind default from_option id].
  destruct letters as [|ch' letters]; [reflexivity|].
  cbn [Xseo_in.lookup_chars]. cbn [ascii_eqb Ascii.eqb Bool.eqb negb].
  rewrite (IH Hdef). reflexivity.
Qed.

Lemma char_js_port_to_num_site (charEqNum : gmap str str) (letters : str) :
  defined_letters charEqNum letters = true ->
  Xseo_in.char_js_port_to_num charEqNum
    {| group0 := site_text delimiter letters;
       groups := [Some (joined letters)] |}
  = Ok (digits_of charEqNum letters).
Proof.
  intros Hdef. unfold Xseo_in.char_js_port_to_num. cbn [groups].
  destruct letters as [|ch letters]; [discriminate|].
  unfold defined_letters in Hdef.
  change ([Some (joined (ch :: letters))] !! 0%nat)
    with (Some (Some (joined (ch :: letters)))).
  cbv beta iota.
  now rewrite (lookup_chars_joined charEqNum (ch :: letters) Hdef).
Qed.

Lemma defined_letters_lower (charEqNum : gmap str str) (letters : str) :
  defined_letters charEqNum letters = true ->
  letters <> [] /\ forallb lower letters = true.
Proof.
  destruct letters as [|ch letters]; [discriminate|].
  unfold defined_letters. intros H. split; [discriminate|].
  revert H. generalize (ch :: letters). intros l.
  induction l as [|x l IH]; [reflexivity|].
  cbn [forallb]. intros H. apply andb_true_iff in H as [Hx Hl].
  apply andb_true_iff in Hx as [Hx _]. rewrite Hx. now apply IH.
Qed.

(** The substitution rewrites a page of text and port expressions into the
    same text with the digits of each expression in its place. *)
Lemma sub_page (charEqNum : gmap str str) (segs : list segment) :
  forall before,
    forallb (well_formed delimiter charEqNum) segs = true ->
    sub_events (Xseo_in.char_js_port_to_num charEqNum)
               (finditer (site_pattern delimiter) 1 before (page_of delimiter segs) 0)
    = Ok (rewritten charEqNum segs).
Proof.
  induction segs as [|seg segs IH]; intros before Hwf; [reflexivity|].
  cbn [forallb] in Hwf. apply andb_true_iff in Hwf as [Hseg Hwf].
  unfold page_of, rewritten. cbn [map concat].
  fold (page_of delimiter segs). fold (rewritten charEqNum segs).
  destruct seg as [t|letters]; cbn [segment_text well_formed] in *.
  - rewrite finditer_plain by exact Hseg.
    rewrite sub_events_gaps, (IH _ Hwf). reflexivity.
  - destruct (defined_letters_lower _ _ Hseg) as [Hne Hlower].
    rewrite finditer_site by assumption.
    cbn [sub_events]. rewrite char_js_port_to_num_site by exact Hseg.
    cbn [bind]. rewrite (IH _ Hwf). reflexivity.
Qed.

End SchemeA.

(** C4: on a page made of text and of port expressions, letters joined by
    ['+'] inside the source's wrapping, whose letters the page defines by
    [letter=digit;] assignments, both Scheme A interpreters hand to the
    pattern the page in which every port expression is replaced by the
    digits of its letters, in the letters' order and without the ['+'].
    With the table [{a:1, b:2, c:3}] the expression over [a+b+c] becomes
    [123]. *)
Theorem scheme_A_rewrites_port_expressions
    (_pattern : str -> list candidate) (segs : list segment)
    (old : gmap str str) :
  (let page := page_of xseo_delimiter segs in
   let charEqNum := Dict.of_pairs (findall2 Xseo_in.expCharNum page) in
   forallb (well_formed xseo_delimiter charEqNum) segs = true ->
   Xseo_in.find_proxies _pattern page old
   = (Ok (_pattern (rewritten charEqNum segs)), charEqNum))
  /\ (let page := page_of nntime_delimiter segs in
      let charEqNum := Dict.of_pairs (findall2 Nntime_com.expCharNum page) in
      forallb (well_formed nntime_delimiter charEqNum) segs = true ->
      Nntime_com.find_proxies _pattern page old
      = (Ok (_pattern (rewritten charEqNum segs)), charEqNum))
  /\ fst (Xseo_in.find_proxies _pattern
            (py "a=1;b=2;c=3;" ++ site_text xseo_delimiter (py "abc")) old)
     = Ok (_pattern (py "a=1;b=2;c=3;123"))
  /\ fst (Nntime_com.find_proxies _pattern
            (py "a=1;b=2;c=3;" ++ site_text nntime_delimiter (py "abc")) old)
     = Ok (_pattern (py "a=1;b=2;c=3;123")).
Proof.
  assert (HX : forall segs',
    let page := page_of xseo_delimiter segs' in
    let charEqNum := Dict.of_pairs (findall2 Xseo_in.expCharNum page) in
    forallb (well_formed xseo_delimiter charEqNum) segs' = true ->
    Xseo_in.find_proxies _pattern page old
    = (Ok (_pattern (rewritten charEqNum segs')), charEqNum)).
  { intros segs' page charEqNum Hwf. unfold Xseo_in.find_proxies, sub.
    fold page. fold charEqNum.
    change Xseo_in.expPortOnJS with (site_pattern xseo_delimiter).
    subst page.
    rewrite (sub_page xseo_delimiter charEqNum segs' None Hwf). reflexivity. }
  assert (HN : forall segs',
    let page := page_of nntime_delimiter segs' in
    let charEqNum := Dict.of_pairs (findall2 Nntime_com.expCharNum page) in
    forallb (well_formed nntime_delimiter charEqNum) segs' = true ->
    Nntime_com.find_proxies _pattern page old
    = (Ok (_pattern (rewritten charEqNum segs')), charEqNum)).
  { intros segs' page charEqNum Hwf. unfold Nntime_com.find_proxies, sub.
    fold page. fold charEqNum.
    change Nntime_com.expPortOnJS with (site_pattern nntime_delimiter).
    change Nntime_com.char_js_port_to_num with Xseo_in.char_js_port_to_num.
    subst page.
    rewrite (sub_page nntime_delimiter charEqNum segs' None Hwf).
    reflexivity. }
  split; [apply HX | split; [apply HN | split]].
  - specialize (HX [Text (py "a=1;b=2;c=3;"); Site (py "abc")]).
    cbn zeta in HX.
    change (page_of xseo_delimiter [Text (py "a=1;b=2;c=3;"); Site (py "abc")])
      with (py "a=1;b=2;c=3;" ++ site_text xseo_delimiter (py "abc") ++ [])
      in HX.
    rewrite app_nil_r in HX. rewrite HX; [|vm_compute; reflexivity].
    cbn [fst]. apply f_equal. apply f_equal. vm_compute. reflexivity.
  - specialize (HN [Text (py "a=1;b=2;c=3;"); Site (py "abc")]).
    cbn zeta in HN.
    change (page_of nntime_delimiter
              [Text (py "a=1;b=2;c=3;"); Site (py "abc")])
      with (py "a=1;b=2;c=3;" ++ site_text nntime_delimiter (py "abc") ++ [])
      in HN.
    rewrite app_nil_r in HN. rewrite HN; [|vm_compute; reflexivity].
    cbn [fst]. apply f_equal. apply f_equal. vm_compute. reflexivity.
Qed.

Lemma scheme_A_rewrites_port_expressions_witness :
  fst (Xseo_in.find_proxies echo_pattern (page_of xseo_delimiter xseo_segments) ∅)
  = Ok [(py "<script>x=8;y=0;</script><td>10.0.0.1<script>document.write8080</script></td><script>track(1)</script>",
         [])].
Proof.
  pose proof (proj1 (scheme_A_rewrites_port_expressions echo_pattern
                       xseo_segments ∅)) as H.
  cbn zeta in H. rewrite H by (vm_compute; reflexivity).
  vm_compute. reflexivity.
Defined.

(* ===================================================================== *)
(** ** Scheme B: the token table                                          *)
(* ===================================================================== *)

Section SchemeB.

Lemma uint_text_no_caret (d : Decimal.uint) :
  char_in "^" (list_ascii_of_string (NilEmpty.string_of_uint d)) = false.
Proof. induction d; cbn; auto. Qed.

Lemma uint_text_nonempty (d : Decimal.uint) :
  d <> Decimal.Nil ->
  exists c t, list_ascii_of_string (NilEmpty.string_of_uint d) = c :: t.
Proof. destruct d; intros H; [congruence|..]; cbn; eauto. Qed.

Lemma str_of_int_pos (p : positive) :
  str_of_int (Z.pos p)
  = list_ascii_of_string (NilEmpty.string_of_uint (Pos.to_uint p)).
Proof.
  unfold str_of_int. cbn [Z.to_int NilZero.string_of_int].
  unfold NilZero.string_of_uint.
  pose proof (DecimalPos.Unsigned.to_uint_nonnil p) as Hnil.
  destruct (Pos.to_uint p); [congruence|..]; reflexivity.
Qed.

(** [int(str(n)) == n] for a natural number. *)
Lemma int_str_of_int (n : N) : int (str_of_int (Z.of_N n)) = Ok (Z.of_N n).
Proof.
  destruct n as [|p]; [reflexivity|].
  cbn [Z.of_N]. rewrite str_of_int_pos. unfold int.
  destruct (uint_text_nonempty (Pos.to_uint p)
              (DecimalPos.Unsigned.to_uint_nonnil p)) as (c & t & Ht).
  rewrite Ht, <- Ht, string_of_list_ascii_of_string, NilEmpty.usu.
  unfold Z.of_uint. now rewrite DecimalPos.Unsigned.of_to.
Qed.

Lemma str_of_int_no_caret (n : N) :
  char_in "^" (str_of_int (Z.of_N n)) = false.
Proof.
  destruct n as [|p]; [reflexivity|].
  cbn [Z.of_N]. rewrite str_of_int_pos. apply uint_text_no_caret.
Qed.

Lemma char_in_app (c : ascii) (a b : str) :
  char_in c (a ++ b) = char_in c a || char_in c b.
Proof. unfold char_in. apply existsb_app. Qed.

Lemma split_acc_field (sep : ascii) (u s : str) : forall acc,
  char_in sep u = false ->
  split_acc sep (u ++ s) acc = split_acc sep s (rev u ++ acc).
Proof.
  induction u as [|c u IH]; intros acc Hu; [reflexivity|].
  cbn [char_in existsb] in Hu. apply orb_false_iff in Hu as [Hc Hu].
  cbn [app split_acc]. unfold ascii_eqb in *.
  rewrite Ascii.eqb_sym, Hc, (IH _ Hu). cbn [rev]. now rewrite <- app_assoc.
Qed.

(** [(a + '^' + b).split('^') == [a, b]] when neither holds a ['^']. *)
Lemma split_pair (a b : str) :
  char_in "^" a = false -> char_in "^" b = false ->
  split "^" (a ++ "^"%char :: b) = [a; b].
Proof.
  intros Ha Hb. unfold split.
  rewrite (split_acc_field "^" a _ [] Ha).
  cbn [split_acc ascii_eqb Ascii.eqb Bool.eqb].
  rewrite app_nil_r, rev_involutive.
  rewrite <- (app_nil_r b) at 1. rewrite (split_acc_field "^" b [] [] Hb).
  cbn [split_acc]. now rewrite app_nil_r, rev_involutive.
Qed.

(** The loop of [find_proxies] builds the table definition by definition. *)
Lemma resolve_tokens (defs : list (str * tokdef)) : forall tbl tbl',
  names_ok defs = true ->
  tokens defs tbl = Some tbl' ->
  Spys_ru.resolve (defs_text defs) tbl = (Ok tt, tbl').
Proof.
  induction defs as [|[name d] defs IH]; intros tbl tbl' Hnames Htok.
  - cbn in *. congruence.
  - cbn [names_ok forallb] in Hnames.
    apply andb_true_iff in Hnames as [Hd Hnames].
    cbn [defs_text map Spys_ru.resolve]. fold (defs_text defs).
    destruct d as [n|n tok]; cbn [def_text tokens] in *.
    + rewrite str_of_int_no_caret, int_str_of_int. now apply IH.
    + apply negb_true_iff in Hd. cbn [py list_ascii_of_string app].
      rewrite char_in_app.
      replace (char_in "^" ("^"%char :: tok)) with true by reflexivity.
      rewrite orb_true_r.
      rewrite (split_pair _ _ (str_of_int_no_caret n) Hd).
      cbn [Spys_ru.unpack2 bind]. rewrite int_str_of_int. cbn [bind].
      unfold Dict.getitem.
      destruct (tbl !! tok) as [v|]; [|discriminate].
      cbn [bind]. now apply IH.
Qed.

Lemma name_ok_cons (c : ascii) (name : str) :
  name_ok (c :: name) = true ->
  char_in c (py "()") = false /\ ascii_eqb c "^" = false
  /\ ascii_eqb c "+" = false /\ name_ok name = true.
Proof.
  unfold name_ok. cbn [forallb]. intros H.
  apply andb_true_iff in H as [Hc Hname]. apply negb_true_iff in Hc.
  cbn [py list_ascii_of_string char_in existsb] in *.
  apply orb_false_iff in Hc as [H1 Hc]. apply orb_false_iff in Hc as [H2 Hc].
  apply orb_false_iff in Hc as [H3 Hc]. apply orb_false_iff in Hc as [H4 _].
  rewrite H1, H2. auto.
Qed.

Lemma name_ok_no (sep : ascii) (name : str) :
  char_in sep (py "()^+") = true ->
  name_ok name = true -> char_in sep name = false.
Proof.
  intros Hsep. induction name as [|c name IH]; intros Hname; [reflexivity|].
  pose proof Hname as Hc. unfold name_ok in Hc. cbn [forallb] in Hc.
  apply andb_true_iff in Hc as [Hc Hrest]. apply negb_true_iff in Hc.
  cbn [char_in existsb]. fold (char_in sep name). rewrite (IH Hrest).
  rewrite orb_false_r. destruct (ascii_eqb sep c) eqn:E; [|reflexivity].
  apply ascii_eqb_eq in E. subst c. congruence.
Qed.

Lemma name_ok_rev (name : str) : name_ok (rev name) = name_ok name.
Proof.
  unfold name_ok. induction name as [|c name IH]; [reflexivity|].
  cbn [rev forallb]. rewrite forallb_app, IH. cbn [forallb].
  rewrite andb_true_r. apply andb_comm.
Qed.

(** Stripping parentheses stops at a name and at the ['^'] after it. *)
Lemma lstrip_name (name t : str) :
  name_ok name = true ->
  lstrip (py "()") (name ++ "^"%char :: t) = name ++ "^"%char :: t.
Proof.
  destruct name as [|c name]; intros Hname; [reflexivity|].
  apply name_ok_cons in Hname as (Hc & _). cbn [app lstrip]. now rewrite Hc.
Qed.

(** ['(a^b)'.strip('()') == 'a^b'] *)
Lemma strip_pair (a b : str) :
  name_ok a = true -> name_ok b = true ->
  strip (py "()") (pair_text (a, b)) = a ++ "^"%char :: b.
Proof.
  intros Ha Hb. unfold strip, rstrip, pair_text.
  cbn [fst snd py list_ascii_of_string app lstrip char_in existsb
       ascii_eqb Ascii.eqb Bool.eqb orb].
  rewrite lstrip_name by exact Ha.
  replace (rev (a ++ "^"%char :: b ++ [")"%char]))
    with (")"%char :: (rev b ++ "^"%char :: rev a)).
  2:{ rewrite rev_app_distr. cbn [rev]. rewrite rev_app_distr. cbn [rev app].
      now rewrite <- app_assoc. }
  cbn [lstrip char_in existsb ascii_eqb Ascii.eqb Bool.eqb orb].
  rewrite lstrip_name by now rewrite name_ok_rev.
  rewrite rev_app_distr. cbn [rev]. rewrite !rev_involutive.
  now rewrite <- app_assoc.
Qed.

(** Splitting a port expression at ['+'] gives an empty first field and
    then the parenthesised pairs. *)
Lemma split_port_code (pairs : list (str * str)) : forall acc,
  forallb (fun p => name_ok p.1 && name_ok p.2) pairs = true ->
  split_acc "+" (port_code pairs) acc = rev acc :: map pair_text pairs.
Proof.
  induction pairs as [|[a b] pairs IH]; intros acc Hok; [reflexivity|].
  cbn [forallb fst snd] in Hok. apply andb_true_iff in Hok as [Hab Hok].
  apply andb_true_iff in Hab as [Ha Hb].
  unfold port_code. cbn [map concat]. fold (port_code pairs).
  cbn [py list_ascii_of_string app split_acc ascii_eqb Ascii.eqb Bool.eqb].
  f_equal. rewrite split_acc_field.
  - rewrite (IH _ Hok). rewrite app_nil_r, rev_involutive. reflexivity.
  - unfold pair_text. cbn [fst snd py list_ascii_of_string app].
    cbn [char_in existsb ascii_eqb Ascii.eqb Bool.eqb orb].
    fold (char_in "+" (a ++ "^"%char :: b ++ [")"%char])).
    rewrite char_in_app. rewrite (name_ok_no "+" a eq_refl Ha).
    cbn [char_in existsb ascii_eqb Ascii.eqb Bool.eqb orb].
    fold (char_in "+" (b ++ [")"%char])).
    rewrite char_in_app. now rewrite (name_ok_no "+" b eq_refl Hb).
Qed.

(** The loop of [char_js_port_to_num] appends the decimal XOR of each pair. *)
Lemma port_loop_pairs (tbl : gmap str Z) (pairs : list (str * str)) :
  forall num,
    forallb (pair_defined tbl) pairs = true ->
    Spys_ru.port_loop tbl (map pair_text pairs) num
    = Ok (num ++ port_digits tbl pairs).
Proof.
  induction pairs as [|[a b] pairs IH]; intros num Hdef.
  - cbn. now rewrite app_nil_r.
  - cbn [forallb] in Hdef. apply andb_true_iff in Hdef as [Hab Hdef].
    unfold pair_defined in Hab. cbn [fst snd] in Hab.
    apply andb_true_iff in Hab as [Hab Hvb].
    apply andb_true_iff in Hab as [Hab Hva].
    apply andb_true_iff in Hab as [Ha Hb].
    apply bool_decide_eq_true in Hva as [va Hva].
    apply bool_decide_eq_true in Hvb as [vb Hvb].
    cbn [map Spys_ru.port_loop]. rewrite (strip_pair a b Ha Hb).
    rewrite (split_pair a b (name_ok_no "^" a eq_refl Ha)
                            (name_ok_no "^" b eq_refl Hb)).
    cbn [Spys_ru.unpack2 bind]. unfold Dict.getitem. rewrite Hva, Hvb.
    cbn [bind]. rewrite (IH _ Hdef).
    unfold port_digits. cbn [map concat fst snd]. rewrite Hva, Hvb.
    cbn [default from_option id]. now rewrite <- app_assoc.
Qed.

Lemma pair_defined_names (tbl : gmap str Z) (pairs : list (str * str)) :
  forallb (pair_defined tbl) pairs = true ->
  forallb (fun p => name_ok p.1 && name_ok p.2) pairs = true.
Proof.
  induction pairs as [|p pairs IH]; [reflexivity|].
  cbn [forallb]. intros H. apply andb_true_iff in H as [Hp H].
  rewrite (IH H), andb_true_r. unfold pair_defined in Hp.
  apply andb_true_iff in Hp as [Hp _]. now apply andb_true_iff in Hp as [Hp _].
Qed.

(** [char_js_port_to_num] on a port expression of defined pairs. *)
Lemma char_js_port_to_num_pairs (tbl : gmap str Z)
    (pairs : list (str * str)) :
  forallb (pair_defined tbl) pairs = true ->
  Spys_ru.char_js_port_to_num tbl
    {| group0 := port_code pairs; groups := [Some (port_code pairs)] |}
  = Ok (port_digits tbl pairs).
Proof.
  intros Hdef. unfold Spys_ru.char_js_port_to_num. cbn [groups].
  change ([Some (port_code pairs)] !! 0%nat)
    with (Some (Some (port_code pairs))).
  cbv beta iota zeta. unfold split.
  rewrite (split_port_code pairs [] (pair_defined_names tbl pairs Hdef)).
  change (drop 1 (rev [] :: map pair_text pairs)) with (map pair_text pairs).
  now rewrite (port_loop_pairs tbl pairs [] Hdef).
Qed.

End SchemeB.

(** C3 (amended): the Scheme B interpreter fills the token table in
    definition order, each definition being a literal integer or the XOR of
    a literal integer with a token defined before it; a port expression,
    pairs [(var1^var2)] each introduced by ['+'], is replaced by the decimal
    XOR of each pair, one after the other.  With [aaaa=5] and
    [bbbb=3] the port expression [+(aaaa^bbbb)] is rewritten to [6]; the
    chained definition [cccc=5^bbbb] stores 6 for [cccc], and the later
    pair [(cccc^aaaa)] is rewritten with it, to [3]; a definition that
    refers to a token defined only after it raises [KeyError]. *)
Theorem Spys_ru_resolves_tokens_in_order
    (_pattern : str -> list candidate) :
  (forall (defs : list (str * tokdef)) (tbl tbl' : gmap str Z),
     names_ok defs = true ->
     tokens defs tbl = Some tbl' ->
     Spys_ru.resolve (defs_text defs) tbl = (Ok tt, tbl'))
  /\ (forall (tbl : gmap str Z) (pairs : list (str * str)),
        forallb (pair_defined tbl) pairs = true ->
        Spys_ru.char_js_port_to_num tbl
          {| group0 := port_code pairs; groups := [Some (port_code pairs)] |}
        = Ok (port_digits tbl pairs))
  /\ fst (Spys_ru.find_proxies _pattern spys_page_pair ∅)
     = Ok (_pattern
             (py "<script>;aaaa=5;bbbb=3;</script><td>10.0.0.1:6</td>"))
  /\ fst (Spys_ru.find_proxies _pattern spys_page_chain ∅)
     = Ok (_pattern (py ";aaaa=5;bbbb=3;cccc=5^bbbb; 10.0.0.1:36 "))
  /\ snd (Spys_ru.find_proxies _pattern spys_page_chain ∅) !! py "cccc"
     = Some 6
  /\ fst (Spys_ru.resolve [(py "cccc", py "5^bbbb"); (py "bbbb", py "3")] ∅)
     = Raise (KeyError (py "bbbb")).
Proof.
  split; [exact resolve_tokens|].
  split; [exact char_js_port_to_num_pairs|].
  split; [|split; [|split]]; vm_compute; reflexivity.
Qed.

Lemma Spys_ru_resolves_tokens_in_order_witness :
  let tbl : gmap str Z :=
    <[py "cccc" := 6]> (<[py "bbbb" := 3]> (<[py "aaaa" := 5]> ∅)) in
  Spys_ru.resolve
    [(py "aaaa", py "5"); (py "bbbb", py "3"); (py "cccc", py "5^bbbb")] ∅
  = (Ok tt, tbl)
  /\ Spys_ru.char_js_port_to_num tbl
       {| group0 := py "+(cccc^aaaa)+(aaaa^bbbb)";
          groups := [Some (py "+(cccc^aaaa)+(aaaa^bbbb)")] |}
     = Ok (py "36").
Proof.
  intros tbl.
  destruct (Spys_ru_resolves_tokens_in_order echo_pattern)
    as (Hresolve & Hpairs & _).
  split.
  - apply (Hresolve [(py "aaaa", Literal 5); (py "bbbb", Literal 3);
                     (py "cccc", XorWith 5 (py "bbbb"))] ∅);
      reflexivity.
  - apply (Hpairs tbl [(py "cccc", py "aaaa"); (py "aaaa", py "bbbb")]).
    vm_compute. reflexivity.
Defined.

(** C3, as stated, fails: a definition that XORs two token names,
    [cccc=aaaa^bbbb], is not resolved to 6; [int('aaaa')] raises
    [ValueError], [find_proxies] ends with it and [cccc] stays undefined. *)
Lemma Spys_ru_token_xor_token_counterexample :
  fst (Spys_ru.find_proxies echo_pattern spys_page_token_xor_token ∅)
  = Raise ValueError
  /\ snd (Spys_ru.find_proxies echo_pattern spys_page_token_xor_token ∅)
       !! py "cccc" = None
  /\ fst (Spys_ru.resolve
            [(py "aaaa", py "5"); (py "bbbb", py "3");
             (py "cccc", py "aaaa^bbbb")] ∅) = Raise ValueError.
Proof. repeat split; vm_compute; reflexivity. Qed.

(* ===================================================================== *)
(** ** How the coroutines compose                                         *)
(* ===================================================================== *)

Section Composition.
Context {S : Type}.

Lemma returns_ret {A} (a : A) : returns (ret (S := S) a).
Proof. intros st. now exists a. Qed.

Lemma returns_mbind {A B} (c : M S A) (f : A -> M S B) :
  returns c -> (forall a, returns (f a)) -> returns (mbind c f).
Proof.
  intros Hc Hf st. unfold mbind. destruct (Hc st) as [a Ha].
  destruct (c st) as [[a'|e] st1]; cbn in Ha; [|discriminate].
  apply Hf.
Qed.

Lemma returns_gather {A} (tasks : list (M S A)) :
  Forall returns tasks -> returns (gather tasks).
Proof.
  induction 1 as [|t tasks Ht _ IH]; cbn [gather]; [apply returns_ret|].
  apply returns_mbind; [exact Ht|]. intros a.
  apply returns_mbind; [exact IH|]. intros l. apply returns_ret.
Qed.

Lemma within_ret {A} (a : A) : within 0 (ret (S := S) a).
Proof. intros st. cbn. lia. Qed.

Lemma within_raise {A} (e : exn) : within 0 (raise (S := S) (A := A) e).
Proof. intros st. cbn. lia. Qed.

Lemma within_weaken {A} (n n' : nat) (c : M S A) :
  (n <= n')%nat -> within n c -> within n' c.
Proof. intros Hn Hc st. specialize (Hc st). lia. Qed.

Lemma within_mbind {A B} (n n' : nat) (c : M S A) (f : A -> M S B) :
  within n c -> (forall a, within n' (f a)) -> within (n + n') (mbind c f).
Proof.
  intros Hc Hf st. unfold mbind. specialize (Hc st).
  destruct (c st) as [[a|e] st1]; cbn [snd] in *; [|lia].
  specialize (Hf a st1). lia.
Qed.

Lemma within_gather {A} (n : nat) (tasks : list (M S A)) :
  Forall (within n) tasks -> within (length tasks * n) (gather tasks).
Proof.
  induction 1 as [|t tasks Ht _ IH]; cbn [gather length Nat.mul];
    [apply within_ret|].
  apply within_mbind; [exact Ht|]. intros a.
  apply (within_weaken (length tasks * n + 0)); [lia|].
  apply within_mbind; [exact IH|]. intros l. apply within_ret.
Qed.

Section Keeps.
Variable R : state S -> state S -> Prop.
Hypothesis R_refl : forall st, R st st.
Hypothesis R_trans : forall st1 st2 st3, R st1 st2 -> R st2 st3 -> R st1 st3.

Lemma keeps_ret {A} (a : A) : keeps R (ret a).
Proof. intros st. apply R_refl. Qed.

Lemma keeps_raise {A} (e : exn) : keeps R (raise (A := A) e).
Proof. intros st. apply R_refl. Qed.

Lemma keeps_mbind {A B} (c : M S A) (f : A -> M S B) :
  keeps R c -> (forall a, keeps R (f a)) -> keeps R (mbind c f).
Proof.
  intros Hc Hf st. unfold mbind. specialize (Hc st).
  destruct (c st) as [[a|e] st1]; cbn [snd] in *; [|exact Hc].
  eapply R_trans; [exact Hc | apply Hf].
Qed.

Lemma keeps_gather {A} (tasks : list (M S A)) :
  Forall (keeps R) tasks -> keeps R (gather tasks).
Proof.
  induction 1 as [|t tasks Ht _ IH]; cbn [gather]; [apply keeps_ret|].
  apply keeps_mbind; [exact Ht|]. intros a.
  apply keeps_mbind; [exact IH|]. intros l. apply keeps_ret.
Qed.

(** *** The methods of [Provider] keep what their steps keep *)

Variable self : provider S.
Variable net : network.
Hypothesis R_log_failed : forall u e, keeps R (log_failed u e).
Hypothesis R_log_error : forall e, keeps R (log_error e).
Hypothesis R_set : forall new, keeps R (set_proxies self new).
Hypothesis R_call : forall page, keeps R (call_find_proxies self page).

Lemma keeps__get (req : request) :
  keeps R (send net req) -> keeps R (_get net req).
Proof.
  intros Hsend. unfold _get. apply keeps_mbind; [exact Hsend|]. intros o.
  destruct (_get_try [] o) as [page [u|e]]; [apply keeps_ret|].
  apply keeps_mbind; [apply R_log_failed|]. intros _. apply keeps_ret.
Qed.

Lemma keeps_get_loop (req : request) (tries : list Z) :
  keeps R (send net req) ->
  forall page, keeps R (get_loop net req tries page).
Proof.
  intros Hsend. induction tries as [|t tries IH]; intros page; cbn [get_loop];
    [apply keeps_ret|].
  apply keeps_mbind; [now apply keeps__get|]. intros p.
  destruct (truthy p); [apply keeps_ret | apply IH].
Qed.

Lemma keeps_get (req : request) :
  keeps R (send net req) -> keeps R (get self net req).
Proof.
  intros Hsend. unfold get. apply keeps_mbind; [now apply keeps_get_loop|].
  intros [p|]; [apply keeps_ret | apply keeps_raise].
Qed.

Lemma keeps_try_find_proxies (page : str) :
  keeps R (try_find_proxies self page).
Proof.
  intros st. unfold try_find_proxies. pose proof (R_call page st) as Hcall.
  destruct (call_find_proxies self page st) as [[received|e] st1];
    cbn [snd] in *; [exact Hcall|].
  eapply R_trans; [exact Hcall|].
  apply (keeps_mbind (log_error e) (fun _ => ret [])); [apply R_log_error|].
  intros _. apply keeps_ret.
Qed.

Lemma keeps__find_on_page (req : request) :
  keeps R (send net req) -> keeps R (_find_on_page self net req).
Proof.
  intros Hsend. unfold _find_on_page.
  apply keeps_mbind; [now apply keeps_get|]. intros page.
  destruct (negb (truthy page)); [apply keeps_ret|].
  apply keeps_mbind; [apply keeps_try_find_proxies|]. intros received.
  apply R_set.
Qed.

Lemma keeps_gather_pages (reqs : list request) :
  Forall (fun req => keeps R (send net req)) reqs ->
  keeps R (gather (map (fun r => _find_on_page self net r) reqs) ;; ret tt).
Proof.
  intros Hreqs. apply keeps_mbind; [|intros _; apply keeps_ret].
  apply keeps_gather. apply Forall_map.
  eapply Forall_impl; [exact Hreqs|]. intros req. apply keeps__find_on_page.
Qed.

Lemma keeps__find_on_pages (urls : pages) :
  Forall (fun req => keeps R (send net req)) (requests_of urls) ->
  keeps R (_find_on_pages self net urls).
Proof.
  destruct urls as [l|l]; cbn [requests_of]; intros Hreqs.
  - destruct l as [|u l]; [apply keeps_ret|]. cbn [_find_on_pages].
    rewrite <- (map_map GET (fun r => _find_on_page self net r)).
    apply keeps_gather_pages.
    apply Forall_forall. intros req Hin.
    apply list_elem_of_fmap in Hin as (v & -> & Hv).
    rewrite elem_of_remove_dups in Hv.
    rewrite Forall_forall in Hreqs. apply Hreqs.
    apply list_elem_of_fmap. exists v. split; [reflexivity | exact Hv].
  - destruct l as [|r l]; [apply keeps_ret|]. now apply keeps_gather_pages.
Qed.

End Keeps.

End Composition.

(* ===================================================================== *)
(** ** Whole runs: what is contained, and how many requests are issued    *)
(* ===================================================================== *)

Section Runs.
Context {S : Type}.
Variable self : provider S.
Variable net : network.

Lemma returns__get (req : request) : returns (S := S) (_get net req).
Proof.
  intros st. destruct (_get_returns net req st) as (st' & Hget & _).
  rewrite Hget. eauto.
Qed.

Lemma returns_get (req : request) :
  1 <= _max_tries self -> returns (get self net req).
Proof.
  intros Hbudget st. unfold get, mbind.
  destruct (get_loop_bounded net req (range (_max_tries self)) None st)
    as (r & st' & Hl & _ & _ & Hsome & _).
  rewrite Hl. destruct (Hsome (range_cons _ Hbudget)) as [page ->].
  cbn. eauto.
Qed.

Lemma returns_try_find_proxies (page : str) :
  returns (try_find_proxies self page).
Proof.
  intros st. unfold try_find_proxies.
  destruct (call_find_proxies self page st) as [[received|e] st1]; cbn; eauto.
Qed.

Lemma returns__find_on_page (req : request) :
  1 <= _max_tries self -> returns (_find_on_page self net req).
Proof.
  intros Hbudget. unfold _find_on_page.
  apply returns_mbind; [now apply returns_get|]. intros page.
  destruct (negb (truthy page)); [apply returns_ret|].
  apply returns_mbind; [apply returns_try_find_proxies|]. intros received.
  intros st. cbn. eauto.
Qed.

Lemma returns_gather_pages (reqs : list request) :
  1 <= _max_tries self ->
  returns (gather (map (fun r => _find_on_page self net r) reqs) ;; ret tt).
Proof.
  intros Hbudget. apply returns_mbind; [|intros _; apply returns_ret].
  apply returns_gather, Forall_map, Forall_forall. intros req _.
  now apply returns__find_on_page.
Qed.

Lemma returns__find_on_pages (urls : pages) :
  1 <= _max_tries self -> returns (_find_on_pages self net urls).
Proof.
  intros Hbudget. destruct urls as [[|u l]|[|r l]]; cbn [_find_on_pages];
    try apply returns_ret.
  - rewrite <- (map_map GET (fun r => _find_on_page self net r)).
    now apply returns_gather_pages.
  - now apply returns_gather_pages.
Qed.

Lemma within_get (req : request) :
  within (Z.to_nat (_max_tries self)) (get self net req).
Proof.
  intros st. unfold get, mbind.
  destruct (get_loop_bounded net req (range (_max_tries self)) None st)
    as (r & st' & Hl & Hle & _).
  rewrite Hl. rewrite range_length in Hle. destruct r; cbn; lia.
Qed.

Lemma within_try_find_proxies (page : str) :
  within 0 (try_find_proxies self page).
Proof.
  intros st. unfold try_find_proxies, call_find_proxies.
  destruct (find_proxies self page (attrs st)) as [[received|e] a]; cbn; lia.
Qed.

Lemma within__find_on_page (req : request) :
  within (Z.to_nat (_max_tries self)) (_find_on_page self net req).
Proof.
  unfold _find_on_page.
  apply (within_weaken (Z.to_nat (_max_tries self) + 0)); [lia|].
  apply within_mbind; [apply within_get|]. intros page.
  destruct (negb (truthy page)); [apply within_ret|].
  apply (within_mbind 0 0); [apply within_try_find_proxies|].
  intros received st. cbn. lia.
Qed.

Lemma within_gather_pages (reqs : list request) :
  within (length reqs * Z.to_nat (_max_tries self))
         (gather (map (fun r => _find_on_page self net r) reqs) ;; ret tt).
Proof.
  apply (within_weaken (length reqs * Z.to_nat (_max_tries self) + 0)); [lia|].
  apply within_mbind; [|intros _; apply within_ret].
  rewrite <- (length_map (fun r => _find_on_page self net r) reqs).
  apply within_gather, Forall_map, Forall_forall. intros req _.
  apply within__find_on_page.
Qed.

Lemma within__find_on_pages (urls : pages) :
  within (page_count urls * Z.to_nat (_max_tries self))
         (_find_on_pages self net urls).
Proof.
  destruct urls as [[|u l]|[|r l]]; cbn [_find_on_pages page_count];
    try (intros st; cbn; lia).
  - rewrite <- (map_map GET (fun r => _find_on_page self net r)).
    rewrite <- (length_map GET (remove_dups (u :: l))).
    apply within_gather_pages.
  - apply within_gather_pages.
Qed.

(** With no retry budget the first fetch of a run raises. *)
Lemma get_unbound (req : request) (st : state S) :
  _max_tries self <= 0 ->
  get self net req st = (Raise UnboundLocalError, st).
Proof.
  intros Hbudget. unfold get, mbind. now rewrite (range_nil _ Hbudget).
Qed.

Lemma _find_on_page_unbound (req : request) (st : state S) :
  _max_tries self <= 0 ->
  _find_on_page self net req st = (Raise UnboundLocalError, st).
Proof.
  intros Hbudget. unfold _find_on_page, mbind. now rewrite get_unbound.
Qed.

Lemma remove_dups_cons (u : str) (l : list str) :
  exists v l', remove_dups (u :: l) = v :: l'.
Proof.
  revert u. induction l as [|w l IH]; intros u; [cbn; eauto|].
  cbn [remove_dups]. destruct (decide_rel elem_of u (w :: l)); [|eauto].
  apply IH.
Qed.

Lemma _find_on_pages_unbound (urls : pages) (st : state S) :
  _max_tries self <= 0 ->
  requests_of urls <> [] ->
  _find_on_pages self net urls st = (Raise UnboundLocalError, st).
Proof.
  intros Hbudget Hne. destruct urls as [[|u l]|[|r l]]; cbn in Hne;
    try congruence; cbn [_find_on_pages].
  - destruct (remove_dups_cons u l) as (v & l' & ->).
    cbn [map gather]. unfold mbind. now rewrite _find_on_page_unbound.
  - cbn [map gather]. unfold mbind. now rewrite _find_on_page_unbound.
Qed.

End Runs.

(** X1: one attempt never raises and issues exactly one request.  When the
    request itself fails, or the body cannot be read, the attempt yields
    empty text and the exception is logged; a 200 response yields its body
    and logs nothing. *)
Theorem _get_contains_transport_errors {S} (net : network) (req : request)
    (st : state S) :
  exists page st',
    _get net req st = (Ok page, st')
    /\ sent st' = req :: sent st
    /\ _proxies st' = _proxies st
    /\ (forall e, net (length (sent st)) req = Refused e ->
          page = [] /\ debug_log st' = (req_url req, e) :: debug_log st)
    /\ (forall status e, net (length (sent st)) req = Reply status (Raise e) ->
          page = [] /\ debug_log st' = (req_url req, e) :: debug_log st)
    /\ (forall body, net (length (sent st)) req = Reply 200 (Ok body) ->
          page = body /\ debug_log st' = debug_log st).
Proof.
  unfold _get, mbind, send. cbn [fst snd].
  destruct (net (length (sent st)) req) as [e|status [body|e]] eqn:E;
    cbn [_get_try].
  - do 2 eexists. split; [reflexivity|]. cbn.
    split; [reflexivity|]. split; [reflexivity|].
    split; [|split]; intros; try discriminate.
    match goal with H : Refused _ = Refused _ |- _ => inversion H end. auto.
  - destruct (status =? 200) eqn:E200; cbn [negb];
      do 2 eexists; (split; [reflexivity|]); cbn;
      (split; [reflexivity|]); (split; [reflexivity|]);
      (split; [|split]); intros; try discriminate.
    + match goal with H : Reply _ _ = Reply _ _ |- _ => inversion H end. auto.
    + match goal with H : Reply _ _ = Reply _ _ |- _ => inversion H end.
      subst. discriminate.
  - do 2 eexists. split; [reflexivity|]. cbn.
    split; [reflexivity|]. split; [reflexivity|].
    split; [|split]; intros; try discriminate.
    match goal with H : Reply _ _ = Reply _ _ |- _ => inversion H end. auto.
Qed.

Lemma _get_contains_transport_errors_witness :
  fst (_get net_down (GET (py "http://example.org/list")) (__init__ tt))
  = Ok [].
Proof.
  destruct (_get_contains_transport_errors net_down
              (GET (py "http://example.org/list")) (__init__ tt))
    as (page & st' & Hget & _ & _ & Hrefused & _).
  rewrite Hget. cbn [fst]. f_equal.
  apply (Hrefused (OtherError (py "TimeoutError"))). reflexivity.
Defined.

Lemma get_loop_empty {S} (net : network) (req : request) (tries : list Z) :
  forall (page : option str) (st st' : state S),
    tries <> [] ->
    get_loop net req tries page st = (Ok (Some []), st') ->
    (forall i, (i < length tries)%nat -> attempt_text net req st i = [])
    /\ length (sent st') = (length (sent st) + length tries)%nat.
Proof.
  induction tries as [|t tries IH]; intros page st st' Hne Hloop;
    [congruence|].
  destruct (_get_returns net req st) as (st1 & Hget & Hsent & _).
  cbn [get_loop] in Hloop. unfold mbind at 1 in Hloop. rewrite Hget in Hloop.
  destruct (attempt_text net req st 0) as [|c p] eqn:E0; cbn [truthy] in Hloop.
  2:{ cbn in Hloop. inversion Hloop. }
  destruct tries as [|t' tries].
  - cbn in Hloop. inversion Hloop; subst st'. rewrite Hsent. cbn [length].
    split; [|lia]. intros i Hi. assert (i = 0%nat) as -> by lia. exact E0.
  - destruct (IH (Some []) st1 st' ltac:(discriminate) Hloop) as [Hall Hlen].
    rewrite Hlen, Hsent. cbn [length]. split; [|lia].
    intros [|i] Hi; [exact E0|].
    rewrite <- (attempt_text_shift net req st st1 i Hsent).
    apply Hall. cbn [length] in *. lia.
Qed.

(** X2: when [get] returns empty text, every attempt of the budget was made
    and every one yielded empty text. *)
Theorem get_empty_means_budget_exhausted {S} (self : provider S)
    (net : network) (req : request) (st : state S) :
  fst (get self net req st) = Ok [] ->
  (forall i, (i < Z.to_nat (_max_tries self))%nat ->
     attempt_text net req st i = [])
  /\ issued st (snd (get self net req st)) = Z.to_nat (_max_tries self).
Proof.
  unfold get, mbind. intros Hget.
  destruct (get_loop net req (range (_max_tries self)) None st)
    as [[[p|]|e] st'] eqn:Hl; cbn in Hget; try discriminate.
  inversion Hget; subst p. cbn [snd ret].
  destruct (range (_max_tries self)) as [|t tries] eqn:Hrange.
  { cbn in Hl. inversion Hl. }
  destruct (get_loop_empty net req (t :: tries) None st st'
              ltac:(discriminate) Hl) as [Hall Hlen].
  rewrite <- Hrange, range_length in Hall, Hlen.
  split; [exact Hall|]. unfold issued. lia.
Qed.

Lemma get_empty_means_budget_exhausted_witness :
  issued (__init__ tt)
    (snd (get (demo_provider 3) net_down (GET (py "http://example.org/list"))
              (__init__ tt))) = 3%nat.
Proof.
  apply (get_empty_means_budget_exhausted (demo_provider 3) net_down
           (GET (py "http://example.org/list")) (__init__ tt)).
  reflexivity.
Defined.

(** X3: [_find_on_page] contains an extraction failure.  After a fetch that
    returned text, a [find_proxies] that raises leaves the result set as it
    was and is logged, a [find_proxies] that returns has its candidates
    merged; in both cases [_find_on_page] returns and the attributes
    [find_proxies] left behind are kept.  After an empty fetch nothing else
    happens. *)
Theorem _find_on_page_contains_extraction_errors {S} (self : provider S)
    (net : network) (req : request) (st st1 : state S) (page : str) :
  get self net req st = (Ok page, st1) ->
  let run := _find_on_page self net req st in
  (page = [] -> run = (Ok tt, st1))
  /\ (page <> [] -> forall received a,
        find_proxies self page (attrs st1) = (Ok received, a) ->
        fst run = Ok tt
        /\ _proxies (snd run)
           = _proxies st ∪ list_to_set (tagged self received)
        /\ attrs (snd run) = a
        /\ error_log (snd run) = error_log st1)
  /\ (page <> [] -> forall e a,
        find_proxies self page (attrs st1) = (Raise e, a) ->
        fst run = Ok tt
        /\ _proxies (snd run) = _proxies st
        /\ attrs (snd run) = a
        /\ error_log (snd run) = e :: error_log st1).
Proof.
  intros Hget run. pose proof (get_preserves self net req st) as [Hpx _].
  rewrite Hget in Hpx. cbn [snd] in Hpx.
  assert (Hrun : run = (if negb (truthy page) then ret tt
                        else let! received := try_find_proxies self page in
                             set_proxies self received) st1).
  { subst run. unfold _find_on_page. unfold mbind at 1. now rewrite Hget. }
  clearbody run. subst run. split; [|split].
  - intros ->. reflexivity.
  - intros Hpage received a Hfind.
    destruct page as [|c page]; [congruence|]. cbn [truthy negb].
    unfold mbind, try_find_proxies, call_find_proxies. rewrite Hfind.
    cbn. rewrite Hpx. auto.
  - intros Hpage e a Hfind.
    destruct page as [|c page]; [congruence|]. cbn [truthy negb].
    unfold mbind, try_find_proxies, call_find_proxies. rewrite Hfind.
    cbn. rewrite Hpx. repeat split; auto.
    apply set_eq. intros r. rewrite elem_of_union.
    split; [intros [H|H]; [exact H | now apply not_elem_of_empty in H] | auto].
Qed.

Lemma _find_on_page_contains_extraction_errors_witness :
  let run := Xseo_in._pipe demo_xseo net_undefined_letter (__init__ ∅) in
  fst run = Ok tt
  /\ _proxies (snd run) = ∅
  /\ error_log (snd run) = [KeyError (py "a")].
Proof.
  intros run.
  pose proof (_find_on_page_contains_extraction_errors demo_xseo
                net_undefined_letter
                {| req_url := py "http://xseo.in/proxylist";
                   req_data := Some [(py "submit", VInt 1)];
                   req_headers := None;
                   req_method := py "POST" |}
                (__init__ ∅) _ _ eq_refl) as (_ & _ & Hraise).
  destruct (Hraise ltac:(discriminate) (KeyError (py "a")) ∅ eq_refl)
    as (Hok & Hpx & _ & Hlog).
  split; [exact Hok | split; [exact Hpx | exact Hlog]].
Defined.

Lemma within_issued {S A} (n : nat) (c : M S A) (st : state S) :
  within n c -> (issued st (snd (c st)) <= n)%nat.
Proof. intros Hc. specialize (Hc st). unfold issued. lia. Qed.

Lemma length_remove_dups_le (l : list str) :
  (length (remove_dups l) <= length l)%nat.
Proof.
  induction l as [|u l IH]; [reflexivity|].
  cbn [remove_dups length]. destruct (decide_rel elem_of u l); cbn [length]; lia.
Qed.

Lemma within_static_pages {S} (self : provider S) (net : network)
    (urls : list str) (k : nat) :
  (length urls <= k)%nat ->
  within (k * Z.to_nat (_max_tries self)) (_find_on_pages self net (Urls urls)).
Proof.
  intros Hk. eapply within_weaken; [|apply within__find_on_pages].
  cbn [page_count]. pose proof (length_remove_dups_le urls). nia.
Qed.

Lemma within_Spys_ru_pipe {S} (self : provider S) (net : network) :
  within (3 * Z.to_nat (_max_tries self)) (Spys_ru._pipe self net).
Proof.
  unfold Spys_ru._pipe.
  apply (within_weaken (Z.to_nat (_max_tries self)
                        + 2 * Z.to_nat (_max_tries self))); [lia|].
  apply within_mbind; [apply within_get|]. intros page.
  destruct (negb (truthy page));
    [eapply within_weaken; [|apply within_ret]; lia|].
  destruct (Spys_ru.first _) as [sessionId|e];
    [|eapply within_weaken; [|apply within_raise]; lia].
  eapply within_weaken; [|apply within__find_on_pages].
  cbn [page_count length map]. lia.
Qed.

(** X4: the requests of a run are bounded by its pages and the retry
    budget: [_find_on_pages] issues at most [max_tries] requests for each
    distinct page of its list, hence at most [max_tries] for a plain
    [Provider] and for [Xseo_in], 5, 19, 30 and 4 times [max_tries] for
    [Foxtools_ru], [proxyservers_pro], [Nntime_com] and
    [Proxylist_download], 3 times for [Spys_ru] (the index and two posts),
    and 4 times for the index pages of [Blogspot_com]. *)
Theorem runs_stay_within_request_budget {S} (self : provider S)
    (net : network) (st : state S) :
  let n := Z.to_nat (_max_tries self) in
  (forall urls,
     issued st (snd (_find_on_pages self net urls st)) <= page_count urls * n)%nat
  /\ (issued st (snd (Provider._pipe self net st)) <= n)%nat
  /\ (issued st (snd (Xseo_in._pipe self net st)) <= n)%nat
  /\ (issued st (snd (Foxtools_ru._pipe self net st)) <= 5 * n)%nat
  /\ (issued st (snd (proxyservers_pro._pipe self net st)) <= 19 * n)%nat
  /\ (issued st (snd (Nntime_com._pipe self net st)) <= 30 * n)%nat
  /\ (issued st (snd (Proxylist_download._pipe self net st)) <= 4 * n)%nat
  /\ (issued st (snd (Spys_ru._pipe self net st)) <= 3 * n)%nat
  /\ (issued st (snd (Blogspot_com_base.index_pages self net
                        Blogspot_com.domains st)) <= 4 * n)%nat.
Proof.
  intros n. subst n.
  repeat match goal with |- _ /\ _ => split end.
  - intros urls. apply within_issued, within__find_on_pages.
  - apply within_issued, within__find_on_page.
  - apply within_issued, within__find_on_page.
  - apply within_issued, within_static_pages. reflexivity.
  - apply within_issued, within_static_pages. reflexivity.
  - apply within_issued, within_static_pages. reflexivity.
  - apply within_issued, within_static_pages. reflexivity.
  - apply within_issued, within_Spys_ru_pipe.
  - apply within_issued. unfold Blogspot_com_base.index_pages.
    apply (within_gather (Z.to_nat (_max_tries self))
             (map _ Blogspot_com.domains)).
    apply Forall_map, Forall_forall. intros d _. apply within_get.
Qed.

(** X5: with a retry budget of at least one, no failure of the network or of
    the extraction ends a run with an exception: the [_pipe] of [Provider],
    [Xseo_in], [Nntime_com], [Foxtools_ru], [proxyservers_pro],
    [Proxylist_download], [Webanetlabs_net], [Checkerproxy_net],
    [My_proxy_com] and [Blogspot_com] always returns, and the only exception
    [Spys_ru._pipe] can end with is [IndexError]. *)
Theorem runs_contain_failures {S} (self : provider S) (net : network) :
  1 <= _max_tries self ->
  returns (Provider._pipe self net)
  /\ returns (Xseo_in._pipe self net)
  /\ returns (Nntime_com._pipe self net)
  /\ returns (Foxtools_ru._pipe self net)
  /\ returns (proxyservers_pro._pipe self net)
  /\ returns (Proxylist_download._pipe self net)
  /\ returns (Webanetlabs_net._pipe self net)
  /\ returns (Checkerproxy_net._pipe self net)
  /\ returns (My_proxy_com._pipe self net)
  /\ returns (Blogspot_com._pipe self net)
  /\ (forall st,
        fst (Spys_ru._pipe self net st) = Ok tt
        \/ fst (Spys_ru._pipe self net st) = Raise IndexError).
Proof.
  intros Hbudget.
  assert (Hguard : forall req (k : str -> M S unit),
            (forall page, returns (k page)) ->
            returns (let! page := get self net req in
                     if negb (truthy page) then ret tt else k page)).
  { intros req k Hk. apply returns_mbind; [now apply returns_get|].
    intros page. destruct (negb (truthy page)); [apply returns_ret | apply Hk]. }
  repeat match goal with |- _ /\ _ => split end;
    try (now apply returns__find_on_page);
    try (now apply returns__find_on_pages);
    try (apply Hguard; intros page; now apply returns__find_on_pages).
  - unfold Blogspot_com._pipe, Blogspot_com_base._pipe.
    apply returns_mbind; [|intros pages; now apply returns__find_on_pages].
    apply returns_gather, Forall_map, Forall_forall. intros d _.
    now apply returns_get.
  - intros st. unfold Spys_ru._pipe, mbind.
    destruct (returns_get self net (GET (py "http://spys.one/proxies/"))
                Hbudget st) as [page Hpage].
    destruct (get self net _ st) as [[page'|e] st1]; cbn in Hpage;
      [|discriminate].
    destruct (negb (truthy page')); [now left|].
    destruct (findall1 Spys_ru.expSession page') as [|sessionId l];
      cbn [Spys_ru.first]; [now right|].
    left.
    match goal with
    | |- fst (_find_on_pages self net ?u st1) = _ =>
        destruct (returns__find_on_pages self net u Hbudget st1) as [[] Hr]
    end.
    exact Hr.
Qed.

Lemma runs_contain_failures_witness :
  fst (Webanetlabs_net._pipe (demo_provider 3) net_blocked (__init__ tt))
  = Ok tt.
Proof.
  destruct (runs_contain_failures (demo_provider 3) net_blocked
              ltac:(cbn; lia)) as (_ & _ & _ & _ & _ & _ & Hweb & _).
  destruct (Hweb (__init__ tt)) as [[] Hr]. exact Hr.
Defined.

(** X6: with a retry budget of zero or less, a run of any source that
    fetches does not degrade to an empty crawl: the first fetch raises
    [UnboundLocalError], the run ends with it, and nothing was requested or
    changed. *)
Theorem runs_without_budget_raise {S} (self : provider S) (net : network)
    (st : state S) :
  _max_tries self <= 0 ->
  Provider._pipe self net st = (Raise UnboundLocalError, st)
  /\ Xseo_in._pipe self net st = (Raise UnboundLocalError, st)
  /\ Nntime_com._pipe self net st = (Raise UnboundLocalError, st)
  /\ Foxtools_ru._pipe self net st = (Raise UnboundLocalError, st)
  /\ proxyservers_pro._pipe self net st = (Raise UnboundLocalError, st)
  /\ Proxylist_download._pipe self net st = (Raise UnboundLocalError, st)
  /\ Webanetlabs_net._pipe self net st = (Raise UnboundLocalError, st)
  /\ Checkerproxy_net._pipe self net st = (Raise UnboundLocalError, st)
  /\ (forall decode,
        Proxy_list_org_fields._pipe self net decode st
        = (Raise UnboundLocalError, st))
  /\ My_proxy_com._pipe self net st = (Raise UnboundLocalError, st)
  /\ Spys_ru._pipe self net st = (Raise UnboundLocalError, st)
  /\ Blogspot_com._pipe self net st = (Raise UnboundLocalError, st).
Proof.
  intros Hbudget.
  assert (Hguard : forall req (k : str -> M S unit),
            (let! page := get self net req in
             if negb (truthy page) then ret tt else k page) st
            = (Raise UnboundLocalError, st)).
  { intros req k. unfold mbind. now rewrite get_unbound. }
  repeat match goal with |- _ /\ _ => split end;
    try (now apply _find_on_page_unbound);
    try (apply _find_on_pages_unbound; [exact Hbudget | discriminate]);
    try (intros decode; apply Hguard);
    try apply Hguard.
  unfold Blogspot_com._pipe, Blogspot_com_base._pipe,
    Blogspot_com_base.index_pages, mbind.
  cbn [Blogspot_com.domains map gather]. unfold mbind.
  now rewrite get_unbound.
Qed.

Lemma runs_without_budget_raise_witness :
  Foxtools_ru._pipe (demo_provider 0) net_down (__init__ tt)
  = (Raise UnboundLocalError, __init__ tt).
Proof.
  apply (runs_without_budget_raise (demo_provider 0) net_down (__init__ tt)).
  cbn. lia.
Defined.

(* ===================================================================== *)
(** ** What every run keeps                                               *)
(* ===================================================================== *)

Section AllPipes.
Context {S : Type}.
Variable R : state S -> state S -> Prop.
Variable self : provider S.
Variable net : network.
Hypothesis R_refl : forall st, R st st.
Hypothesis R_trans : forall st1 st2 st3, R st1 st2 -> R st2 st3 -> R st1 st3.
Hypothesis R_log_failed : forall u e, keeps R (log_failed u e).
Hypothesis R_log_error : forall e, keeps R (log_error e).
Hypothesis R_set : forall new, keeps R (set_proxies self new).
Hypothesis R_call : forall page, keeps R (call_find_proxies self page).
Hypothesis R_send : forall req, keeps R (send net req).

Lemma keeps_page (req : request) : keeps R (_find_on_page self net req).
Proof. apply keeps__find_on_page; auto. Qed.

Lemma keeps_pages (urls : pages) : keeps R (_find_on_pages self net urls).
Proof.
  apply keeps__find_on_pages; auto.
  apply Forall_forall. intros req _. apply R_send.
Qed.

Lemma keeps_guarded (req : request) (k : str -> M S unit) :
  (forall page, keeps R (k page)) ->
  keeps R (let! page := get self net req in
           if negb (truthy page) then ret tt else k page).
Proof.
  intros Hk. apply keeps_mbind; auto; [apply keeps_get; auto|].
  intros page. destruct (negb (truthy page)); [now apply keeps_ret | apply Hk].
Qed.

Lemma keeps_file (file : result str) :
  keeps R (FileProvider._pipe self file).
Proof.
  destruct file as [text|e]; cbn [FileProvider._pipe];
    [|now apply keeps_raise].
  apply keeps_mbind; auto.
Qed.

Lemma keeps_all_pipes :
  keeps R (Provider._pipe self net)
  /\ keeps R (Xseo_in._pipe self net)
  /\ keeps R (Nntime_com._pipe self net)
  /\ keeps R (Foxtools_ru._pipe self net)
  /\ keeps R (proxyservers_pro._pipe self net)
  /\ keeps R (Proxylist_download._pipe self net)
  /\ keeps R (Webanetlabs_net._pipe self net)
  /\ keeps R (Checkerproxy_net._pipe self net)
  /\ keeps R (Proxy_list_org._pipe self net)
  /\ keeps R (My_proxy_com._pipe self net)
  /\ keeps R (Spys_ru._pipe self net)
  /\ keeps R (Blogspot_com._pipe self net).
Proof.
  repeat match goal with |- _ /\ _ => split end;
    try apply keeps_page; try apply keeps_pages;
    try (apply keeps_guarded; intros page; apply keeps_pages).
  - apply keeps_guarded. intros page.
    destruct (Spys_ru.first _) as [sessionId|e];
      [apply keeps_pages | now apply keeps_raise].
  - unfold Blogspot_com._pipe, Blogspot_com_base._pipe.
    apply keeps_mbind; auto; [|intros pages; apply keeps_pages].
    apply keeps_gather; auto. apply Forall_map, Forall_forall.
    intros d _. apply keeps_get; auto.
Qed.

End AllPipes.

Section Grown.
Context {S : Type}.
Variable self : provider S.

Lemma grown_refl (st : state S) : grown self st st.
Proof. split; [reflexivity | auto]. Qed.

Lemma grown_trans (st1 st2 st3 : state S) :
  grown self st1 st2 -> grown self st2 st3 -> grown self st1 st3.
Proof.
  intros [Hsub12 Hnew12] [Hsub23 Hnew23]. split; [now transitivity (_proxies st2)|].
  intros r Hr. destruct (Hnew23 r Hr) as [H2|Hnew]; [|now right].
  apply Hnew12, H2.
Qed.

Lemma grown_same (st st' : state S) :
  _proxies st' = _proxies st -> grown self st st'.
Proof. intros Heq. split; [now rewrite Heq | rewrite Heq; auto]. Qed.

Lemma grown_set (new : list candidate) :
  keeps (grown self) (set_proxies self new).
Proof.
  intros st. split.
  - rewrite _proxies_set_proxies. apply union_subseteq_l.
  - intros [[host port] pr] Hr.
    rewrite _proxies_set_proxies, elem_of_union, elem_of_list_to_set in Hr.
    destruct Hr as [Hr|Hr]; [now left|]. right.
    apply elem_of_tagged in Hr as (_ & Hport & ->). auto.
Qed.

Lemma grown_call (page : str) :
  keeps (grown self) (call_find_proxies self page).
Proof.
  intros st. apply grown_same. unfold call_find_proxies.
  now destruct (find_proxies self page (attrs st)).
Qed.

End Grown.

(** X7: a run never removes a record from the result set, and every record
    it adds carries the provider's [proto] and a non-empty port; this holds
    for the [_pipe] of [Provider], [Xseo_in], [Nntime_com], [Foxtools_ru],
    [proxyservers_pro], [Proxylist_download], [Webanetlabs_net],
    [Checkerproxy_net], [My_proxy_com], [Spys_ru] and [Blogspot_com],
    whether the run returns or raises, and for [FileProvider].  Hence what
    [get_proxies] returns for a freshly constructed provider holds only
    such records, and no two of them share their [(host, port)]. *)
Theorem runs_only_add_tagged_records {S} (self : provider S) (net : network) :
  (keeps (grown self) (Provider._pipe self net)
   /\ keeps (grown self) (Xseo_in._pipe self net)
   /\ keeps (grown self) (Nntime_com._pipe self net)
   /\ keeps (grown self) (Foxtools_ru._pipe self net)
   /\ keeps (grown self) (proxyservers_pro._pipe self net)
   /\ keeps (grown self) (Proxylist_download._pipe self net)
   /\ keeps (grown self) (Webanetlabs_net._pipe self net)
   /\ keeps (grown self) (Checkerproxy_net._pipe self net)
   /\ keeps (grown self) (My_proxy_com._pipe self net)
   /\ keeps (grown self) (Spys_ru._pipe self net)
   /\ keeps (grown self) (Blogspot_com._pipe self net))
  /\ (forall file, keeps (grown self) (FileProvider._pipe self file))
  /\ (forall (pipe : M S unit) (a : S) (s : gset proxy),
        keeps (grown self) pipe ->
        fst (get_proxies pipe (__init__ a)) = Ok s ->
        clean self s
        /\ forall r1 r2 : proxy,
             r1 ∈ s -> r2 ∈ s -> host_port r1 = host_port r2 -> r1 = r2).
Proof.
  assert (Hsame : forall A (c : M S A),
            (forall st, _proxies (snd (c st)) = _proxies st) ->
            keeps (grown self) c).
  { intros A c Hc st. apply grown_same, Hc. }
  split; [|split].
  - destruct (keeps_all_pipes (grown self) self net
                (grown_refl self) (grown_trans self)
                (fun u e => Hsame _ (log_failed u e) (fun st => eq_refl))
                (fun e => Hsame _ (log_error e) (fun st => eq_refl))
                (grown_set self) (grown_call self)
                (fun req => Hsame _ (send net req) (fun st => eq_refl)))
      as (H1 & H2 & H3 & H4 & H5 & H6 & H7 & H8 & _ & H10 & H11 & H12).
    exact (conj H1 (conj H2 (conj H3 (conj H4 (conj H5 (conj H6 (conj H7
            (conj H8 (conj H10 (conj H11 H12)))))))))).
  - intros file. apply keeps_file;
      first [ apply grown_refl | apply grown_trans | apply grown_set
            | apply grown_call ].
  - intros pipe a s Hpipe Hrun.
    assert (Hclean : clean self s).
    { unfold get_proxies, mbind in Hrun. specialize (Hpipe (__init__ a)).
      destruct (pipe (__init__ a)) as [[[]|e] st']; cbn in Hrun;
        [|discriminate].
      inversion Hrun; subst s. intros r Hr.
      destruct Hpipe as [_ Hnew]. destruct (Hnew r Hr) as [H0|H1]; [|exact H1].
      cbn in H0. now apply not_elem_of_empty in H0. }
    split; [exact Hclean|].
    intros [[h1 p1] pr1] [[h2 p2] pr2] H1 H2 Hkey.
    apply Hclean in H1 as [H1 _]. apply Hclean in H2 as [H2 _].
    cbn in H1, H2, Hkey. inversion Hkey; subst. reflexivity.
Qed.

Lemma get_proxies_returns {S} (pipe : M S unit) (st : state S) :
  fst (pipe st) = Ok tt ->
  fst (get_proxies pipe st) = Ok (_proxies (snd (pipe st))).
Proof.
  intros Hpipe. unfold get_proxies, mbind.
  destruct (pipe st) as [[[]|e] st']; cbn in *; [reflexivity | discriminate].
Qed.

Lemma runs_only_add_tagged_records_witness :
  clean demo_listing
    (_proxies (snd (Provider._pipe demo_listing net_third_time (__init__ tt))))
  /\ size (_proxies (snd (Provider._pipe demo_listing net_third_time
                            (__init__ tt)))) = 1%nat.
Proof.
  destruct (runs_only_add_tagged_records demo_listing net_third_time)
    as ((Hpipe & _) & _ & Hrun).
  split; [|vm_compute; reflexivity].
  apply (Hrun (Provider._pipe demo_listing net_third_time) tt _ Hpipe).
  apply get_proxies_returns. reflexivity.
Defined.

Section Asked.
Context {S : Type}.
Variable P : request -> Prop.
Variable self : provider S.
Variable net : network.

Lemma asked_refl (st : state S) : asked P st st.
Proof. exists []. split; [reflexivity | constructor]. Qed.

Lemma asked_trans (st1 st2 st3 : state S) :
  asked P st1 st2 -> asked P st2 st3 -> asked P st1 st3.
Proof.
  intros (new1 & H1 & HP1) (new2 & H2 & HP2). exists (new2 ++ new1).
  split; [now rewrite H2, H1, app_assoc|]. now apply Forall_app.
Qed.

Lemma asked_same {A} (c : M S A) :
  (forall st, sent (snd (c st)) = sent st) -> keeps (asked P) c.
Proof. intros Hc st. exists []. split; [apply Hc | constructor]. Qed.

Lemma asked_send (req : request) :
  P req -> keeps (asked (S := S) P) (send net req).
Proof.
  intros HP st. exists [req]. split; [reflexivity|].
  constructor; [exact HP | constructor].
Qed.







End Asked.


(* ===================================================================== *)
(** ** Scheme B: the table across definitions and across pages            *)
(* ===================================================================== *)

(** X9: the loop that fills the token table composes: the definitions of a
    list are processed as those of its first part followed, on the table
    they leave, by those of its second part; when a definition of the first
    part fails, the loop ends there with the table as it then is. *)
Theorem Spys_ru_resolve_composes (res1 res2 : list (str * str))
    (tbl : gmap str Z) :
  Spys_ru.resolve (res1 ++ res2) tbl
  = match Spys_ru.resolve res1 tbl with
    | (Ok _, tbl1) => Spys_ru.resolve res2 tbl1
    | (Raise e, tbl1) => (Raise e, tbl1)
    end.
Proof.
  revert tbl. induction res1 as [|[char num] res1 IH]; intros tbl;
    [reflexivity|].
  cbn [app Spys_ru.resolve].
  destruct (if char_in "^" num then _ else _) as [n|e]; [apply IH | reflexivity].
Qed.

Lemma resolve_keeps (res : list (str * str)) : forall tbl : gmap str Z,
  dom tbl ⊆ dom (snd (Spys_ru.resolve res tbl))
  /\ forall name, name ∉ res.*1 ->
       snd (Spys_ru.resolve res tbl) !! name = tbl !! name.
Proof.
  induction res as [|[char num] res IH]; intros tbl; [split; [reflexivity|auto]|].
  cbn [Spys_ru.resolve].
  destruct (if char_in "^" num then _ else _) as [n|e];
    [|split; [reflexivity|auto]].
  destruct (IH (<[char := n]> tbl)) as [Hdom Hother]. split.
  - etransitivity; [|exact Hdom]. rewrite dom_insert. apply union_subseteq_r.
  - intros name Hname. cbn [fmap list_fmap fst] in Hname.
    apply not_elem_of_cons in Hname as [Hne Hname].
    rewrite (Hother name Hname). now apply lookup_insert_ne.
Qed.

(** X10: [find_proxies] of [Spys_ru] never clears its token table: every
    token the table held before the call is still defined after it, with
    its old value unless the page defines that name again. *)
Theorem Spys_ru_table_is_never_cleared (_pattern : str -> list candidate)
    (page : str) (tbl : gmap str Z) :
  let tbl' := snd (Spys_ru.find_proxies _pattern page tbl) in
  dom tbl ⊆ dom tbl'
  /\ forall name,
       name ∉ (findall2 Spys_ru.expCharNum page).*1 ->
       tbl' !! name = tbl !! name.
Proof.
  intros tbl'.
  assert (Htbl : tbl' = snd (Spys_ru.resolve
                               (findall2 Spys_ru.expCharNum page) tbl)).
  { subst tbl'. unfold Spys_ru.find_proxies.
    now destruct (Spys_ru.resolve _ tbl) as [[[]|e] t]. }
  rewrite Htbl. apply resolve_keeps.
Qed.

Lemma Spys_ru_table_is_never_cleared_witness :
  let tbl1 := snd (Spys_ru.find_proxies echo_pattern spys_first_page ∅) in
  snd (Spys_ru.find_proxies echo_pattern spys_second_page tbl1) !! py "aaaa"
  = Some 5
  /\ fst (Spys_ru.find_proxies echo_pattern spys_second_page tbl1)
     = Ok [(py ";bbbb=3; 10.0.0.2:6 ", [])]
  /\ fst (Spys_ru.find_proxies echo_pattern spys_second_page ∅)
     = Raise (KeyError (py "aaaa")).
Proof.
  intros tbl1. split; [|split; vm_compute; reflexivity].
  rewrite (proj2 (Spys_ru_table_is_never_cleared echo_pattern
                    spys_second_page tbl1) (py "aaaa")).
  - vm_compute. reflexivity.
  - vm_compute. intros H. apply list_elem_of_singleton in H. discriminate.
Defined.

Section SchemeB_errors.

Lemma port_loop_app (tbl : gmap str Z) (pairs : list (str * str))
    (more : list str) : forall num,
  forallb (pair_defined tbl) pairs = true ->
  Spys_ru.port_loop tbl (map pair_text pairs ++ more) num
  = Spys_ru.port_loop tbl more (num ++ port_digits tbl pairs).
Proof.
  induction pairs as [|[a b] pairs IH]; intros num Hdef.
  - cbn. now rewrite app_nil_r.
  - cbn [forallb] in Hdef. apply andb_true_iff in Hdef as [Hab Hdef].
    unfold pair_defined in Hab. cbn [fst snd] in Hab.
    apply andb_true_iff in Hab as [Hab Hvb].
    apply andb_true_iff in Hab as [Hab Hva].
    apply andb_true_iff in Hab as [Ha Hb].
    apply bool_decide_eq_true in Hva as [va Hva].
    apply bool_decide_eq_true in Hvb as [vb Hvb].
    cbn [map app Spys_ru.port_loop]. rewrite (strip_pair a b Ha Hb).
    rewrite (split_pair a b (name_ok_no "^" a eq_refl Ha)
                            (name_ok_no "^" b eq_refl Hb)).
    cbn [Spys_ru.unpack2 bind]. unfold Dict.getitem. rewrite Hva, Hvb.
    cbn [bind]. rewrite (IH _ Hdef).
    unfold port_digits. cbn [map concat fst snd]. rewrite Hva, Hvb.
    cbn [default from_option id]. now rewrite <- app_assoc.
Qed.

Lemma names_ok_app (pairs1 pairs2 : list (str * str)) :
  forallb (fun p => name_ok p.1 && name_ok p.2) pairs1 = true ->
  forallb (fun p => name_ok p.1 && name_ok p.2) pairs2 = true ->
  forallb (fun p => name_ok p.1 && name_ok p.2) (pairs1 ++ pairs2) = true.
Proof. intros H1 H2. now rewrite forallb_app, H1, H2. Qed.

End SchemeB_errors.

(** X11: a port expression that refers to a token the table does not hold
    makes [char_js_port_to_num] raise [KeyError] for that token: for the
    first token of the first such pair when that one is missing, else for
    its second token. *)
Theorem Spys_ru_missing_token_raises (tbl : gmap str Z)
    (pairs1 pairs2 : list (str * str)) (a b : str) :
  forallb (pair_defined tbl) pairs1 = true ->
  forallb (fun p => name_ok p.1 && name_ok p.2) ((a, b) :: pairs2) = true ->
  (tbl !! a = None ->
   Spys_ru.char_js_port_to_num tbl
     (port_code_match (pairs1 ++ (a, b) :: pairs2)) = Raise (KeyError a))
  /\ (is_Some (tbl !! a) -> tbl !! b = None ->
      Spys_ru.char_js_port_to_num tbl
        (port_code_match (pairs1 ++ (a, b) :: pairs2)) = Raise (KeyError b)).
Proof.
  intros Hdef Hnames.
  assert (Hloop : Spys_ru.char_js_port_to_num tbl
                    (port_code_match (pairs1 ++ (a, b) :: pairs2))
                  = Spys_ru.port_loop tbl
                      (pair_text (a, b) :: map pair_text pairs2)
                      ([] ++ port_digits tbl pairs1)).
  { unfold Spys_ru.char_js_port_to_num, port_code_match. cbn [groups].
    change ([Some ?x] !! 0%nat) with (Some (Some x)).
    cbv beta iota zeta. unfold split.
    rewrite split_port_code
      by (apply names_ok_app; [now apply (pair_defined_names tbl) | exact Hnames]).
    change (drop 1 (rev [] :: ?l)) with l.
    rewrite map_app. cbn [map]. now apply port_loop_app. }
  rewrite Hloop. cbn [forallb fst snd] in Hnames.
  apply andb_true_iff in Hnames as [Hab _].
  apply andb_true_iff in Hab as [Ha Hb].
  cbn [Spys_ru.port_loop]. rewrite (strip_pair a b Ha Hb).
  rewrite (split_pair a b (name_ok_no "^" a eq_refl Ha)
                          (name_ok_no "^" b eq_refl Hb)).
  cbn [Spys_ru.unpack2 bind]. unfold Dict.getitem. split.
  - intros ->. reflexivity.
  - intros [va ->] ->. reflexivity.
Qed.

Lemma Spys_ru_missing_token_raises_witness :
  Spys_ru.char_js_port_to_num (<[py "aaaa" := 5]> (∅ : gmap str Z))
    {| group0 := py "+(aaaa^aaaa)+(aaaa^bbbb)";
       groups := [Some (py "+(aaaa^aaaa)+(aaaa^bbbb)")] |}
  = Raise (KeyError (py "bbbb")).
Proof.
  pose proof (Spys_ru_missing_token_raises
                (<[py "aaaa" := 5]> (∅ : gmap str Z))
                [(py "aaaa", py "aaaa")] [] (py "aaaa") (py "bbbb")) as H.
  apply H; [vm_compute; reflexivity | reflexivity | | reflexivity].
  exists 5. reflexivity.
Defined.

Section SchemeB_plain.

(** No port expression of spys.one starts at a ['+'] that a ['('] does not
    follow, nor at any other character. *)
Lemma spys_no_match (c : ascii) (s : str) (before : option ascii)
    (must_advance : bool) :
  (if ascii_eqb c "+"
   then match s with [] => true | c' :: _ => negb (ascii_eqb c' "(") end
   else true) = true ->
  match_at Spys_ru.expPortOnJS 1 must_advance before (c :: s) = None.
Proof.
  intros Hc. unfold match_at, Spys_ru.expPortOnJS.
  cbn [m rest length rep hi_allows Seq Nat.eqb].
  unfold ascii_eqb in *. rewrite (Ascii.eqb_sym "+" c).
  destruct (Ascii.eqb c "+"); [|reflexivity].
  unfold advance. cbn [rest].
  destruct s as [|c' s]; [reflexivity|].
  rewrite (Ascii.eqb_sym "(" c').
  apply negb_true_iff in Hc. now rewrite Hc.
Qed.

Lemma finditer_no_port_code (t : str) : forall before,
  no_port_code t = true ->
  finditer Spys_ru.expPortOnJS 1 before t 0 = map Gap t.
Proof.
  induction t as [|c t IH]; intros before Hplain; [reflexivity|].
  cbn [no_port_code] in Hplain. apply andb_true_iff in Hplain as [Hc Hplain].
  cbn [finditer map]. rewrite (spys_no_match c t before false Hc).
  f_equal. now apply IH.
Qed.

Lemma sub_events_all_gaps (repl : matchobj -> result str) (t : str) :
  sub_events repl (map Gap t) = Ok t.
Proof.
  induction t as [|c t IH]; [reflexivity|].
  cbn [map sub_events]. now rewrite IH.
Qed.

End SchemeB_plain.

(** X12: a page in which no port expression starts (every ['+'] is followed
    by something other than ['(']) and whose token definitions resolve is
    handed to the pattern as it is, and the table is the one the definitions
    give. *)
Theorem Spys_ru_leaves_plain_pages (_pattern : str -> list candidate)
    (page : str) (tbl tbl' : gmap str Z) :
  no_port_code page = true ->
  Spys_ru.resolve (findall2 Spys_ru.expCharNum page) tbl = (Ok tt, tbl') ->
  Spys_ru.find_proxies _pattern page tbl = (Ok (_pattern page), tbl').
Proof.
  intros Hplain Hres. unfold Spys_ru.find_proxies, sub. rewrite Hres.
  now rewrite (finditer_no_port_code page None Hplain), sub_events_all_gaps.
Qed.

Lemma Spys_ru_leaves_plain_pages_witness :
  Spys_ru.find_proxies echo_pattern (py "<p>1+1=2; 10.0.0.1:8080 (a+b)</p>") ∅
  = (Ok [(py "<p>1+1=2; 10.0.0.1:8080 (a+b)</p>", [])], ∅).
Proof.
  apply (Spys_ru_leaves_plain_pages echo_pattern
           (py "<p>1+1=2; 10.0.0.1:8080 (a+b)</p>") ∅ ∅);
    vm_compute; reflexivity.
Defined.

(* ===================================================================== *)
(** ** Scheme A: a letter the page does not define                        *)
(* ===================================================================== *)

Section SchemeA_errors.
Variable delimiter : str.

(** The substitution on a page that goes on after its segments. *)
Lemma sub_page_then (repl : gmap str str) (segs : list segment) (s : str) :
  forall before,
    forallb (well_formed delimiter repl) segs = true ->
    exists before',
      sub_events (Xseo_in.char_js_port_to_num repl)
                 (finditer (site_pattern delimiter) 1 before
                           (page_of delimiter segs ++ s) 0)
      = bind (sub_events (Xseo_in.char_js_port_to_num repl)
                         (finditer (site_pattern delimiter) 1 before' s 0))
             (fun out => Ok (rewritten repl segs ++ out)).
Proof.
  induction segs as [|seg segs IH]; intros before Hwf.
  - exists before. cbn [page_of map concat app rewritten].
    now destruct (sub_events _ _).
  - cbn [forallb] in Hwf. apply andb_true_iff in Hwf as [Hseg Hwf].
    unfold page_of, rewritten. cbn [map concat].
    fold (page_of delimiter segs). fold (rewritten repl segs).
    rewrite <- app_assoc.
    destruct seg as [t|letters]; cbn [segment_text well_formed] in *.
    + rewrite (finditer_plain delimiter) by exact Hseg.
      destruct (IH (prev_after before t) Hwf) as [before' Heq].
      exists before'. rewrite sub_events_gaps, Heq.
      destruct (sub_events _ (finditer _ 1 before' s 0)); cbn [bind];
        [|reflexivity].
      now rewrite <- app_assoc.
    + destruct (defined_letters_lower _ _ Hseg) as [Hne Hlower].
      rewrite (finditer_site delimiter) by assumption.
      destruct (IH (Some ")"%char) Hwf) as [before' Heq].
      exists before'. cbn [sub_events].
      rewrite (char_js_port_to_num_site delimiter) by exact Hseg.
      cbn [bind]. rewrite Heq.
      destruct (sub_events _ (finditer _ 1 before' s 0)); cbn [bind];
        [|reflexivity].
      now rewrite <- app_assoc.
Qed.

(** The look-ups stop at the first letter the table does not hold. *)
Lemma lookup_chars_undefined (tbl : gmap str str) (pre post : str)
    (ch : ascii) :
  forallb (fun c => lower c && bool_decide (is_Some (tbl !! [c]))) pre = true ->
  lower ch = true ->
  tbl !! [ch] = None ->
  Xseo_in.lookup_chars tbl (joined (pre ++ ch :: post))
  = Raise (KeyError [ch]).
Proof.
  intros Hpre Hch Hnone.
  assert (Hplus : forall c, lower c = true -> ascii_eqb c "+" = false).
  { intros c Hc. destruct (ascii_eqb c "+") eqn:E; [|reflexivity].
    apply ascii_eqb_eq in E. subst c. discriminate. }
  induction pre as [|c pre IH].
  - cbn [app]. rewrite joined_cons. cbn [Xseo_in.lookup_chars].
    rewrite (Hplus ch Hch). cbn [negb]. unfold Dict.getitem.
    now rewrite Hnone.
  - cbn [forallb] in Hpre. apply andb_true_iff in Hpre as [Hc Hpre].
    apply andb_true_iff in Hc as [Hlow Hsome].
    apply bool_decide_eq_true in Hsome as [v Hv].
    cbn [app]. rewrite joined_cons. cbn [Xseo_in.lookup_chars].
    rewrite (Hplus c Hlow). cbn [negb]. unfold Dict.getitem at 1.
    rewrite Hv. cbn [bind].
    destruct (pre ++ ch :: post) as [|c' l] eqn:E;
      [now destruct pre|].
    cbn [Xseo_in.lookup_chars]. cbn [ascii_eqb Ascii.eqb Bool.eqb negb].
    now rewrite (IH Hpre).
Qed.

Lemma forallb_lower_app (pre post : str) (ch : ascii) :
  forallb lower (pre ++ ch :: post) = true ->
  lower ch = true.
Proof.
  rewrite forallb_app. cbn [forallb]. intros H.
  apply andb_true_iff in H as [_ H]. now apply andb_true_iff in H as [H _].
Qed.

(** The substitution raises at the first port expression that refers to an
    undefined letter. *)
Lemma sub_page_undefined (tbl : gmap str str) (segs : list segment)
    (pre post rest0 : str) (ch : ascii) :
  forallb (well_formed delimiter tbl) segs = true ->
  forallb lower (pre ++ ch :: post) = true ->
  forallb (fun c => lower c && bool_decide (is_Some (tbl !! [c]))) pre = true ->
  tbl !! [ch] = None ->
  sub (site_pattern delimiter) 1 (Xseo_in.char_js_port_to_num tbl)
      (page_of delimiter segs ++ site_text delimiter (pre ++ ch :: post)
       ++ rest0)
  = Raise (KeyError [ch]).
Proof.
  intros Hwf Hlower Hpre Hnone. unfold sub.
  destruct (sub_page_then tbl segs
              (site_text delimiter (pre ++ ch :: post) ++ rest0) None Hwf)
    as [before' ->].
  rewrite (finditer_site delimiter) by (try assumption; now destruct pre).
  cbn [sub_events]. unfold Xseo_in.char_js_port_to_num at 1. cbn [groups].
  change ([Some ?x] !! 0%nat) with (Some (Some x)). cbv beta iota.
  rewrite (lookup_chars_undefined tbl pre post ch Hpre
             (forallb_lower_app pre post ch Hlower) Hnone).
  reflexivity.
Qed.

End SchemeA_errors.

(** X13: when a page of xseo.in or nntime.com holds, after well-formed text
    and port expressions, a port expression with a letter the page does not
    define, [find_proxies] raises [KeyError] for the first such letter,
    whatever follows on the page. *)
Theorem scheme_A_undefined_letter_raises
    (_pattern : str -> list candidate) (segs : list segment)
    (pre post rest0 : str) (ch : ascii) (old : gmap str str) :
  forallb lower (pre ++ ch :: post) = true ->
  (let page := page_of xseo_delimiter segs
               ++ site_text xseo_delimiter (pre ++ ch :: post) ++ rest0 in
   let charEqNum := Dict.of_pairs (findall2 Xseo_in.expCharNum page) in
   forallb (well_formed xseo_delimiter charEqNum) segs = true ->
   forallb (fun c => lower c && bool_decide (is_Some (charEqNum !! [c]))) pre
     = true ->
   charEqNum !! [ch] = None ->
   Xseo_in.find_proxies _pattern page old
   = (Raise (KeyError [ch]), charEqNum))
  /\ (let page := page_of nntime_delimiter segs
                  ++ site_text nntime_delimiter (pre ++ ch :: post) ++ rest0 in
      let charEqNum := Dict.of_pairs (findall2 Nntime_com.expCharNum page) in
      forallb (well_formed nntime_delimiter charEqNum) segs = true ->
      forallb (fun c => lower c && bool_decide (is_Some (charEqNum !! [c]))) pre
        = true ->
      charEqNum !! [ch] = None ->
      Nntime_com.find_proxies _pattern page old
      = (Raise (KeyError [ch]), charEqNum)).
Proof.
  intros Hlower. split.
  - intros page charEqNum Hwf Hpre Hnone.
    unfold Xseo_in.find_proxies. fold page. fold charEqNum.
    change Xseo_in.expPortOnJS with (site_pattern xseo_delimiter).
    subst page.
    now rewrite (sub_page_undefined xseo_delimiter charEqNum segs pre post
                   rest0 ch Hwf Hlower Hpre Hnone).
  - intros page charEqNum Hwf Hpre Hnone.
    unfold Nntime_com.find_proxies. fold page. fold charEqNum.
    change Nntime_com.expPortOnJS with (site_pattern nntime_delimiter).
    change Nntime_com.char_js_port_to_num with Xseo_in.char_js_port_to_num.
    subst page.
    now rewrite (sub_page_undefined nntime_delimiter charEqNum segs pre post
                   rest0 ch Hwf Hlower Hpre Hnone).
Qed.

Lemma scheme_A_undefined_letter_raises_witness :
  fst (Xseo_in.find_proxies echo_pattern
         (py "<script>x=8;</script><td>10.0.0.1"
          ++ site_text xseo_delimiter (py "xyx") ++ py "</td>") ∅)
  = Raise (KeyError (py "y")).
Proof.
  pose proof (proj1 (scheme_A_undefined_letter_raises echo_pattern
                       [Text (py "<script>x=8;</script><td>10.0.0.1")]
                       (py "x") (py "x") (py "</td>") "y" ∅ eq_refl)) as H.
  cbn zeta in H.
  change (page_of xseo_delimiter [Text (py "<script>x=8;</script><td>10.0.0.1")])
    with (py "<script>x=8;</script><td>10.0.0.1" ++ []) in H.
  rewrite app_nil_r in H.
  change (py "xyx") with (py "x" ++ "y"%char :: py "x").
  rewrite H; [reflexivity | vm_compute; reflexivity..].
Defined.

(* ===================================================================== *)
(** ** The setter of [proxies]: growth                                    *)
(* ===================================================================== *)

Lemma size_list_to_set_le (l : list proxy) :
  (size (list_to_set (C := gset proxy) l) <= length l)%nat.
Proof.
  induction l as [|x l IH].
  { change (list_to_set (C := gset proxy) []) with (∅ : gset proxy).
    rewrite size_empty. reflexivity. }
  cbn [list_to_set length]. rewrite size_union_alt, size_singleton.
  pose proof (subseteq_size (list_to_set (C := gset proxy) l ∖ {[x]})
                (list_to_set l)
                ltac:(apply subseteq_difference_l; reflexivity)).
  lia.
Qed.

Lemma length_tagged_le {S} (self : provider S) (new : list candidate) :
  (length (tagged self new) <= length new)%nat.
Proof.
  unfold tagged. induction new as [|[host port] new IH]; [reflexivity|].
  cbn [omap list_omap length]. destruct (truthy port); cbn [length]; lia.
Qed.

(** X14: a merge never removes a record, adds at most one record per
    candidate, and changes nothing when every candidate lacks a port. *)
Theorem proxies_setter_only_grows {S} (self : provider S)
    (new : list candidate) (st : state S) :
  let st' := snd (set_proxies self new st) in
  _proxies st ⊆ _proxies st'
  /\ (size (_proxies st') <= size (_proxies st) + length new)%nat
  /\ (Forall (fun c => c.2 = []) new -> _proxies st' = _proxies st).
Proof.
  intros st'. subst st'. rewrite _proxies_set_proxies.
  split; [apply union_subseteq_l | split].
  - rewrite size_union_alt.
    pose proof (subseteq_size
                  (list_to_set (C := gset proxy) (tagged self new)
                   ∖ _proxies st)
                  (list_to_set (tagged self new))
                  ltac:(apply subseteq_difference_l; reflexivity)).
    pose proof (size_list_to_set_le (tagged self new)).
    pose proof (length_tagged_le self new). lia.
  - intros Hnone. apply set_eq. intros [[host port] pr].
    rewrite elem_of_union, elem_of_list_to_set, elem_of_tagged.
    split; [|auto]. intros [H|(Hin & Hport & _)]; [exact H|].
    rewrite Forall_forall in Hnone. now specialize (Hnone _ Hin).
Qed.

Lemma proxies_setter_only_grows_witness :
  _proxies (snd (set_proxies (demo_provider 3)
                   [(py "10.0.0.1", []); (py "10.0.0.2", [])] (__init__ tt)))
  = ∅.
Proof.
  apply (proxies_setter_only_grows (demo_provider 3)
           [(py "10.0.0.1", []); (py "10.0.0.2", [])] (__init__ tt)).
  repeat constructor.
Defined.

(* ===================================================================== *)
(** ** [Proxy_list_org]: lists of fields                                  *)
(* ===================================================================== *)

Section FieldLists.




Lemma unpack_pairs (items : list (list str)) :
  forallb is_pair items = true ->
  exists pairs,
    Fields.unpack items = Ok pairs
    /\ items = map (fun '(host, port) => [host; port]) pairs.
Proof.
  induction items as [|item items IH]; intros Hall; [now exists []|].
  cbn [forallb] in Hall. apply andb_true_iff in Hall as [Hitem Hall].
  destruct (IH Hall) as (pairs & Hun & Hitems).
  destruct item as [|a [|b [|c item]]]; try discriminate.
  exists ((a, b) :: pairs). cbn [Fields.unpack]. rewrite Hun. cbn.
  now rewrite <- Hitems.
Qed.

Lemma unpack_not_pairs (items : list (list str)) :
  forallb is_pair items = false ->
  Fields.unpack items = Raise ValueError.
Proof.
  induction items as [|item items IH]; intros Hall; [discriminate|].
  cbn [forallb] in Hall.
  destruct item as [|a [|b [|c item]]]; try reflexivity.
  cbn [is_pair andb] in Hall. cbn [Fields.unpack]. now rewrite (IH Hall).
Qed.



End FieldLists.



(** X16: on a page of [Proxy_list_org] the extraction is contained but the
    unpacking is not.  After a fetch that returned text: when every item
    has two fields the candidates are merged; when some item has another
    number of fields the setter raises [ValueError] outside the [try], so
    [_find_on_page] ends with it and nothing is merged; when
    [find_proxies] itself raises, the page yields no candidate and
    [_find_on_page] returns. *)
Theorem Proxy_list_org_unpacking_is_not_contained {S} (self : provider S)
    (net : network) (decode : str -> result str) (req : request)
    (st st1 : state S) (page : str) :
  get self net req st = (Ok page, st1) ->
  page <> [] ->
  let run := Fields._find_on_page self net
               (Proxy_list_org_fields.find_proxies decode) req st in
  (forall items,
     Proxy_list_org_fields.find_proxies decode page = Ok items ->
     forallb is_pair items = true ->
     exists pairs,
       items = map (fun '(host, port) => [host; port]) pairs
       /\ fst run = Ok tt
       /\ _proxies (snd run) = _proxies st ∪ list_to_set (tagged self pairs))
  /\ (forall items,
        Proxy_list_org_fields.find_proxies decode page = Ok items ->
        forallb is_pair items = false ->
        run = (Raise ValueError, st1))
  /\ (forall e,
        Proxy_list_org_fields.find_proxies decode page = Raise e ->
        fst run = Ok tt
        /\ _proxies (snd run) = _proxies st
        /\ error_log (snd run) = e :: error_log st1).
Proof.
  intros Hget Hpage run.
  pose proof (get_preserves self net req st) as [Hpx _].
  rewrite Hget in Hpx. cbn [snd] in Hpx.
  assert (Hrun : run = (let! received :=
                          Fields.try_find_proxies
                            (Proxy_list_org_fields.find_proxies decode) page in
                        Fields.set_proxies self received) st1).
  { subst run. unfold Fields._find_on_page. unfold mbind at 1. rewrite Hget.
    destruct page; [congruence | reflexivity]. }
  clearbody run. subst run. unfold mbind, Fields.try_find_proxies.
  split; [|split].
  - intros items -> Hall. destruct (unpack_pairs items Hall) as (pairs & Hun & ->).
    exists pairs. cbn [ret]. unfold Fields.set_proxies. rewrite Hun.
    cbn. rewrite Hpx. auto.
  - intros items -> Hall. cbn [ret]. unfold Fields.set_proxies.
    now rewrite (unpack_not_pairs items Hall).
  - intros e ->. cbn. rewrite Hpx. repeat split.
    apply set_eq. intros r. rewrite elem_of_union.
    split; [intros [H|H]; [exact H | now apply not_elem_of_empty in H] | auto].
Qed.

Lemma Proxy_list_org_unpacking_is_not_contained_witness :
  fst (Fields._find_on_page (demo_provider 3) net_plo_no_colon
         (Proxy_list_org_fields.find_proxies demo_decode)
         (GET Proxy_list_org.index) (__init__ tt)) = Raise ValueError
  /\ fst (Fields._find_on_page (demo_provider 3) net_plo_good
            (Proxy_list_org_fields.find_proxies demo_decode)
            (GET Proxy_list_org.index) (__init__ tt)) = Ok tt.
Proof.
  split.
  - destruct (Proxy_list_org_unpacking_is_not_contained (demo_provider 3)
                net_plo_no_colon demo_decode (GET Proxy_list_org.index)
                (__init__ tt) _ _ eq_refl ltac:(discriminate))
      as (_ & Hbad & _).
    rewrite (Hbad [[py "10.0.0.1"; py "80"]; [py "noport"]]);
      [reflexivity | vm_compute; reflexivity | reflexivity].
  - destruct (Proxy_list_org_unpacking_is_not_contained (demo_provider 3)
                net_plo_good demo_decode (GET Proxy_list_org.index)
                (__init__ tt) _ _ eq_refl ltac:(discriminate))
      as (Hgood & _).
    destruct (Hgood [[py "10.0.0.1"; py "80"]]
                ltac:(vm_compute; reflexivity) eq_refl)
      as (pairs & _ & Hok & _).
    exact Hok.
Defined.

Section FieldRuns.
Context {S : Type}.
Variable self : provider S.
Variable net : network.
Variable find_proxies : str -> result (list (list str)).

Lemma returns_or_ret {A} (e : exn) (a : A) : returns_or e (ret (S := S) a).
Proof. intros st. left. cbn. eauto. Qed.

Lemma returns_or_returns {A} (e : exn) (c : M S A) :
  returns c -> returns_or e c.
Proof. intros Hc st. left. apply Hc. Qed.

Lemma returns_or_mbind {A B} (e : exn) (c : M S A) (f : A -> M S B) :
  returns_or e c -> (forall a, returns_or e (f a)) -> returns_or e (mbind c f).
Proof.
  intros Hc Hf st. unfold mbind. specialize (Hc st).
  destruct (c st) as [[a|e'] st1]; cbn [fst] in *.
  - apply Hf.
  - right. destruct Hc as [[a Ha]|Hc]; [discriminate | now inversion Hc].
Qed.

Lemma returns_or_gather {A} (e : exn) (tasks : list (M S A)) :
  Forall (returns_or e) tasks -> returns_or e (gather tasks).
Proof.
  induction 1 as [|t tasks Ht _ IH]; cbn [gather]; [apply returns_or_ret|].
  apply returns_or_mbind; [exact Ht|]. intros a.
  apply returns_or_mbind; [exact IH|]. intros l. apply returns_or_ret.
Qed.

Lemma unpack_raises (new : list (list str)) (e : exn) :
  Fields.unpack new = Raise e -> e = ValueError.
Proof.
  revert e. induction new as [|item new IH]; intros e H; [discriminate|].
  destruct item as [|a [|b [|c item]]]; cbn [Fields.unpack] in H;
    try (now inversion H).
  destruct (Fields.unpack new) as [pairs|e']; cbn in H; [discriminate|].
  inversion H; subst e'. now apply IH.
Qed.

Lemma returns_or_fields_set (new : list (list str)) :
  returns_or ValueError (Fields.set_proxies self new).
Proof.
  intros st. unfold Fields.set_proxies.
  destruct (Fields.unpack new) as [pairs|e] eqn:Hun.
  - left. cbn. eauto.
  - right. now rewrite (unpack_raises new e Hun).
Qed.

Lemma returns_fields_try (page : str) :
  returns (S := S) (Fields.try_find_proxies find_proxies page).
Proof.
  intros st. unfold Fields.try_find_proxies.
  destruct (find_proxies page); cbn; eauto.
Qed.

Lemma returns_or_fields_page (req : request) :
  1 <= _max_tries self ->
  returns_or ValueError (Fields._find_on_page self net find_proxies req).
Proof.
  intros Hbudget. unfold Fields._find_on_page.
  apply returns_or_mbind; [now apply returns_or_returns, returns_get|].
  intros page. destruct (negb (truthy page)); [apply returns_or_ret|].
  apply returns_or_mbind; [apply returns_or_returns, returns_fields_try|].
  apply returns_or_fields_set.
Qed.

Lemma returns_or_fields_pages (urls : list str) :
  1 <= _max_tries self ->
  returns_or ValueError (Fields._find_on_pages self net find_proxies urls).
Proof.
  intros Hbudget. destruct urls as [|u urls]; [apply returns_or_ret|].
  cbn [Fields._find_on_pages].
  apply returns_or_mbind; [|intros _; apply returns_or_ret].
  apply returns_or_gather, Forall_map, Forall_forall. intros u' _.
  now apply returns_or_fields_page.
Qed.

(** *** What the field-list methods keep *)

Variable R : state S -> state S -> Prop.
Hypothesis R_refl : forall st, R st st.
Hypothesis R_trans : forall st1 st2 st3, R st1 st2 -> R st2 st3 -> R st1 st3.
Hypothesis R_log_failed : forall u e, keeps R (log_failed u e).
Hypothesis R_log_error : forall e, keeps R (log_error e).
Hypothesis R_set : forall new, keeps R (set_proxies self new).

Lemma keeps_fields_set (new : list (list str)) :
  keeps R (Fields.set_proxies self new).
Proof.
  unfold Fields.set_proxies.
  destruct (Fields.unpack new); [apply R_set | now apply keeps_raise].
Qed.

Lemma keeps_fields_try (page : str) :
  keeps R (Fields.try_find_proxies find_proxies page).
Proof.
  unfold Fields.try_find_proxies.
  destruct (find_proxies page); [now apply keeps_ret|].
  apply keeps_mbind; [exact R_trans | apply R_log_error |].
  intros _. now apply keeps_ret.
Qed.

Lemma keeps_fields_page (req : request) :
  keeps R (send net req) ->
  keeps R (Fields._find_on_page self net find_proxies req).
Proof.
  intros Hsend. unfold Fields._find_on_page.
  apply keeps_mbind; [exact R_trans | now apply keeps_get |]. intros page.
  destruct (negb (truthy page)); [now apply keeps_ret|].
  apply keeps_mbind; [exact R_trans | apply keeps_fields_try |].
  apply keeps_fields_set.
Qed.

Lemma keeps_fields_pages (urls : list str) :
  (forall u, u ∈ urls -> keeps R (send net (GET u))) ->
  keeps R (Fields._find_on_pages self net find_proxies urls).
Proof.
  intros Hsend. destruct urls as [|u urls]; [now apply keeps_ret|].
  cbn [Fields._find_on_pages].
  apply keeps_mbind; [exact R_trans | | intros _; now apply keeps_ret].
  apply keeps_gather; [exact R_refl | exact R_trans |].
  apply Forall_map, Forall_forall. intros u' Hin.
  rewrite elem_of_remove_dups in Hin. now apply keeps_fields_page, Hsend.
Qed.

End FieldRuns.

Section FieldPipe.
Context {S : Type}.
Variable self : provider S.
Variable net : network.
Variable decode : str -> result str.

Lemma Proxy_list_org_urls (page u : str) :
  u ∈ map (fun path => py "http://proxy-list.org/english/" ++ path)
          (findall1 Proxy_list_org.exp page) ++ [Proxy_list_org.index] ->
  index_or_under Proxy_list_org.index (py "http://proxy-list.org/english/")
    (GET u).
Proof.
  intros Hin. apply elem_of_app in Hin as [Hin|Hin].
  - apply list_elem_of_fmap in Hin as (path & -> & _). right. eauto.
  - apply list_elem_of_singleton in Hin as ->. now left.
Qed.

Lemma keeps_fields_pipe (R : state S -> state S -> Prop) :
  (forall st, R st st) ->
  (forall st1 st2 st3, R st1 st2 -> R st2 st3 -> R st1 st3) ->
  (forall u e, keeps R (log_failed u e)) ->
  (forall e, keeps R (log_error e)) ->
  (forall new, keeps R (set_proxies self new)) ->
  (forall req,
     index_or_under Proxy_list_org.index (py "http://proxy-list.org/english/")
       req ->
     keeps R (send net req)) ->
  keeps R (Proxy_list_org_fields._pipe self net decode).
Proof.
  intros Hrefl Htrans Hfailed Herror Hset Hsend.
  unfold Proxy_list_org_fields._pipe.
  apply keeps_mbind; [exact Htrans | |].
  - apply keeps_get; auto. apply Hsend. now left.
  - intros page. destruct (negb (truthy page)); [now apply keeps_ret|].
    apply keeps_fields_pages; auto.
    intros u Hin. apply Hsend. now apply (Proxy_list_org_urls page).
Qed.

End FieldPipe.

(** X17: with a retry budget of at least one, a run of [Proxy_list_org]
    returns or ends with [ValueError], and with no other exception: failed
    fetches and a failing [find_proxies] (a token that is not base64, bytes
    that are not UTF-8) are contained, a decoded text without exactly one
    colon is not. *)
Theorem Proxy_list_org_run_returns_or_ValueError {S} (self : provider S)
    (net : network) (decode : str -> result str) :
  1 <= _max_tries self ->
  returns_or ValueError (Proxy_list_org_fields._pipe self net decode).
Proof.
  intros Hbudget. unfold Proxy_list_org_fields._pipe.
  apply returns_or_mbind; [now apply returns_or_returns, returns_get|].
  intros page. destruct (negb (truthy page)); [apply returns_or_ret|].
  now apply returns_or_fields_pages.
Qed.

Lemma Proxy_list_org_run_returns_or_ValueError_witness :
  fst (Proxy_list_org_fields._pipe (demo_provider 3) net_plo_no_colon
         demo_decode (__init__ tt)) = Raise ValueError
  /\ fst (Proxy_list_org_fields._pipe (demo_provider 3) net_plo_good
            demo_decode (__init__ tt)) = Ok tt.
Proof.
  split.
  - destruct (Proxy_list_org_run_returns_or_ValueError (demo_provider 3)
                net_plo_no_colon demo_decode ltac:(cbn; lia) (__init__ tt))
      as [[a Ha]|Hr]; [|exact Hr].
    vm_compute in Ha. discriminate.
  - destruct (Proxy_list_org_run_returns_or_ValueError (demo_provider 3)
                net_plo_good demo_decode ltac:(cbn; lia) (__init__ tt))
      as [[[] Ha]|Hr]; [exact Ha|].
    vm_compute in Hr. discriminate.
Defined.

(** X18: whether a run of [Proxy_list_org] returns or ends with
    [ValueError], the result set has only grown, what was added carries the
    provider's protocols and a non-empty port, and every request went to the
    index page or to an address under [http://proxy-list.org/english/]. *)
Theorem Proxy_list_org_run_keeps_records_and_pages {S} (self : provider S)
    (net : network) (decode : str -> result str) (st : state S) :
  let st' := snd (Proxy_list_org_fields._pipe self net decode st) in
  grown self st st'
  /\ asked (index_or_under Proxy_list_org.index
              (py "http://proxy-list.org/english/")) st st'.
Proof.
  intros st'. subst st'. split.
  - apply (keeps_fields_pipe self net decode (grown self));
      first [ apply grown_refl | apply grown_trans | apply grown_set
            | intros; intros st0; now apply grown_same ].
  - apply (keeps_fields_pipe self net decode (asked _));
      first [ apply asked_refl | apply asked_trans
            | intros req Hreq; now apply asked_send
            | intros; apply asked_same; intros; reflexivity ].
Qed.
